(** * AgentGatePay transaction signing service

    A shallow embedding of the two request handlers of the repository:

    - [Service.sign_payment]: [POST /sign-payment] of
      [tx-signing-service/index.js] (v3.0, owner authorisation and the
      two-transaction commission split);
    - [Legacy.sign_and_send]: [POST /sign-and-send] of the older
      single-transfer service.

    JavaScript values are modelled as the handlers use them: strings as
    [string], an absent property or header as [None], BigInt as [Z],
    Number as an IEEE 754 binary64 value ([spec_float] at precision 53),
    objects used as tables as association lists looked up through
    [Object.prototype].  The collaborators (identity service, ethers
    provider / wallet / contract) are effects of a small free monad; a
    [World] answers them and the interpreter records every call. *)

From Stdlib Require Import ZArith List String Ascii Bool Lia.
From Stdlib Require Import DecimalString DecimalPos.
From Stdlib Require Import Floats.SpecFloat.
From Stdlib Require Import QArith Qround.
Import ListNotations.

Local Open Scope string_scope.
Local Open Scope Z_scope.

(** ** JavaScript primitives used by the handlers *)

Module JS.

(** A thrown [Error]: the handlers read [error.code] and [error.message]. *)
Record JsError := mkError { err_code : option string; err_message : string }.

Definition Error (msg : string) : JsError := mkError None msg.

(** [error.code === name]. *)
Definition code_is (error : JsError) (name : string) : bool :=
  match err_code error with
  | Some c => String.eqb c name
  | None => false
  end.

(** [!x] for a value that is a string or [undefined]. *)
Definition falsy (x : option string) : bool :=
  match x with
  | None => true
  | Some s => String.eqb s EmptyString
  end.

Definition truthy (x : option string) : bool := negb (falsy x).

(** Template-literal rendering of a string-or-undefined value. *)
Definition show (x : option string) : string :=
  match x with
  | None => "undefined"
  | Some s => s
  end.

(** *** Plain objects used as lookup tables

    [obj[key]] on an object literal finds own properties first and then
    the properties every object inherits from [Object.prototype]. *)

Definition Object_prototype_keys : list string :=
  [ "constructor"; "__defineGetter__"; "__defineSetter__"; "hasOwnProperty";
    "__lookupGetter__"; "__lookupSetter__"; "isPrototypeOf";
    "propertyIsEnumerable"; "toString"; "valueOf"; "__proto__";
    "toLocaleString" ].

Inductive Lookup (V : Type) : Type :=
| Own (v : V)
| Inherited (name : string)
| Undefined.
Arguments Own {V} v.
Arguments Inherited {V} name.
Arguments Undefined {V}.

Fixpoint assoc {V : Type} (own : list (string * V)) (key : string) : option V :=
  match own with
  | [] => None
  | (k, v) :: rest => if String.eqb k key then Some v else assoc rest key
  end.

Definition mem (key : string) (l : list string) : bool :=
  existsb (String.eqb key) l.

Definition get {V : Type} (own : list (string * V)) (key : string) : Lookup V :=
  match assoc own key with
  | Some v => Own v
  | None => if mem key Object_prototype_keys then Inherited key else Undefined
  end.

Definition keys {V : Type} (own : list (string * V)) : list string :=
  map fst own.

(** A value read from a table of strings: a string, or one of the
    inherited function objects. *)
Inductive Ref : Type :=
| RefString (s : string)
| RefInherited (name : string).

(** Template-literal rendering of an inherited member (native functions
    print their source placeholder, [__proto__] is a plain object). *)
Definition show_inherited (name : string) : string :=
  if String.eqb name "__proto__" then "[object Object]"
  else "function " ++ (if String.eqb name "constructor" then "Object" else name)
       ++ "() { [native code] }".

Definition show_ref (r : Ref) : string :=
  match r with
  | RefString s => s
  | RefInherited n => show_inherited n
  end.

(** *** BigInt *)

(** [BigInt.prototype.toString()]: decimal digits, [-] for negatives. *)
Definition BigInt_toString (z : Z) : string :=
  NilZero.string_of_int (Z.to_int z).

(** White space stripped by the string-to-number conversions (the ASCII
    part of [StrWhiteSpaceChar]: TAB, LF, VT, FF, CR, SP). *)
Definition is_white_space (c : ascii) : bool :=
  let n := nat_of_ascii c in
  (Nat.eqb n 9 || Nat.eqb n 10 || Nat.eqb n 11 || Nat.eqb n 12
   || Nat.eqb n 13 || Nat.eqb n 32)%bool.

Fixpoint trim_start (s : string) : string :=
  match s with
  | String c rest => if is_white_space c then trim_start rest else s
  | EmptyString => s
  end.

Fixpoint string_rev (s : string) : string :=
  match s with
  | EmptyString => EmptyString
  | String c rest => string_rev rest ++ String c EmptyString
  end.

Definition trim (s : string) : string :=
  string_rev (trim_start (string_rev (trim_start s))).

(** Value of a digit in the given radix (letters in either case). *)
Definition digit_value (radix : Z) (c : ascii) : option Z :=
  let n := Z.of_nat (nat_of_ascii c) in
  let v :=
    if (48 <=? n) && (n <=? 57) then Some (n - 48)
    else if (97 <=? n) && (n <=? 122) then Some (n - 87)
    else if (65 <=? n) && (n <=? 90) then Some (n - 55)
    else None in
  match v with
  | Some d => if d <? radix then Some d else None
  | None => None
  end.

(** All of [s] read as digits of [radix], most significant first. *)
Fixpoint digits_value (radix : Z) (s : string) (acc : Z) : option Z :=
  match s with
  | EmptyString => Some acc
  | String c rest =>
      match digit_value radix c with
      | Some d => digits_value radix rest (acc * radix + d)
      | None => None
      end
  end.

Definition nonempty_digits (radix : Z) (s : string) : option Z :=
  match s with
  | EmptyString => None
  | _ => digits_value radix s 0
  end.

(** [StringToBigInt]: surrounding white space is dropped, the empty
    string is [0n], a decimal literal may carry a sign, a [0x] / [0o] /
    [0b] literal may not; anything else is not a BigInt. *)
Definition StringToBigInt (s : string) : option Z :=
  match trim s with
  | EmptyString => Some 0
  | String "0" (String ("x" | "X") rest) => nonempty_digits 16 rest
  | String "0" (String ("o" | "O") rest) => nonempty_digits 8 rest
  | String "0" (String ("b" | "B") rest) => nonempty_digits 2 rest
  | String "-" rest => option_map Z.opp (nonempty_digits 10 rest)
  | String "+" rest => nonempty_digits 10 rest
  | t => nonempty_digits 10 t
  end.

(** [BigInt(s)] for a string argument: a [SyntaxError] when the string
    is not a BigInt literal. *)
Definition BigInt_of_string (s : string) : JsError + Z :=
  match StringToBigInt s with
  | Some z => inr z
  | None => inl (Error ("Cannot convert " ++ s ++ " to a BigInt"))
  end.

(** *** Number (IEEE 754 binary64) *)

Definition prec : Z := 53.
Definition emax : Z := 1024.

Definition Number : Type := spec_float.

(** The invariant of every Number the engine produces. *)
Definition is_Number (x : Number) : Prop := valid_binary prec emax x = true.

Definition Number_mul : Number -> Number -> Number := SFmul prec emax.
Definition Number_div : Number -> Number -> Number := SFdiv prec emax.
Definition Number_lt : Number -> Number -> bool := SFltb.

(** The Number nearest to an integer (integer literals, [Number(s)] and
    [parseInt(s)] of an integer string). *)
Definition Number_of_Z (z : Z) : Number := binary_normalize prec emax z 0 false.

(** Integer part towards minus infinity of a finite Number. *)
Definition floor_finite (s : bool) (m : positive) (e : Z) : Z :=
  Z.shiftl (cond_Zopp s (Zpos m)) e.

(** [BigInt(Math.floor(x))]: [Math.floor] returns NaN and the infinities
    unchanged and [BigInt] rejects them with a [RangeError]; on any other
    Number the floor is an integer and converts exactly. *)
Definition BigInt_of_floor (x : Number) : JsError + Z :=
  match x with
  | S754_zero _ => inr 0
  | S754_finite s m e => inr (floor_finite s m e)
  | S754_nan =>
      inl (Error "The number NaN cannot be converted to a BigInt because it is not an integer")
  | S754_infinity s =>
      inl (Error ("The number " ++ (if s then "-" else EmptyString)
                  ++ "Infinity cannot be converted to a BigInt because it is not an integer"))
  end.

End JS.

(** ** The collaborators, as effects *)

Module Chain.
Import JS.

(** The pending transaction returned by [contract.transfer]. *)
Record Tx := mkTx { hash : string }.

(** The receipt returned by [tx.wait]; [status] is [1] on success. *)
Record Receipt := mkReceipt { status : option Z; blockNumber : Z; gasUsed : Z }.

(** The amount argument of [contract.transfer]: [/sign-payment] passes a
    decimal string, [/sign-and-send] the Number from [parseInt]. *)
Inductive Amount : Type :=
| AmountString (s : string)
| AmountNumber (n : Number).

(** What [await response.json()] gives [verifyOwnerApiKey]. *)
Inductive JsonBody : Type :=
| JsonThrows (e : JsError)
| JsonNull
| JsonValue.

(** What [await fetch(...)] gives [verifyOwnerApiKey]. *)
Inductive FetchAnswer : Type :=
| FetchFailed (e : JsError)
| FetchResponse (ok : bool) (json : JsonBody).

(** Programs over the collaborators.  [Connect] stands for the three
    constructors [new ethers.JsonRpcProvider(rpc)],
    [new ethers.Wallet(key, provider)] and
    [new ethers.Contract(tokenAddress, erc20Abi, wallet)]; its answer is
    [wallet.address], or the exception one of them throws. *)
Inductive Prog (R : Type) : Type :=
| Ret (r : R)
| Fetch (url apiKey : string) (k : FetchAnswer -> Prog R)
| Connect (rpc : Ref) (privateKey : option string) (tokenAddress : Ref)
          (k : JsError + string -> Prog R)
| Transfer (to : string) (amount : Amount) (k : JsError + Tx -> Prog R)
| Wait (tx : Tx) (confirms timeout : Z) (k : JsError + Receipt -> Prog R).
Arguments Ret {R} r.
Arguments Fetch {R} url apiKey k.
Arguments Connect {R} rpc privateKey tokenAddress k.
Arguments Transfer {R} to amount k.
Arguments Wait {R} tx confirms timeout k.

Fixpoint bind {A B : Type} (p : Prog A) (f : A -> Prog B) : Prog B :=
  match p with
  | Ret a => f a
  | Fetch url key k => Fetch url key (fun x => bind (k x) f)
  | Connect rpc pk tok k => Connect rpc pk tok (fun x => bind (k x) f)
  | Transfer to amt k => Transfer to amt (fun x => bind (k x) f)
  | Wait tx c t k => Wait tx c t (fun x => bind (k x) f)
  end.

(** One call to a collaborator, with the answer it gave. *)
Inductive Event : Type :=
| EvFetch (url apiKey : string) (answer : FetchAnswer)
| EvConnect (rpc : Ref) (privateKey : option string) (tokenAddress : Ref)
            (answer : JsError + string)
| EvTransfer (to : string) (amount : Amount) (answer : JsError + Tx)
| EvWait (tx : Tx) (confirms timeout : Z) (answer : JsError + Receipt).

(** The outside world: each answer may depend on everything that was
    called before. *)
Record World := mkWorld {
  on_fetch : list Event -> string -> string -> FetchAnswer;
  on_connect : list Event -> Ref -> option string -> Ref -> JsError + string;
  on_transfer : list Event -> string -> Amount -> JsError + Tx;
  on_wait : list Event -> Tx -> Z -> Z -> JsError + Receipt
}.

(** Runs a program against a world from history [h]; returns the
    history extended with the calls made, and the result. *)
Fixpoint run {R : Type} (w : World) (p : Prog R) (h : list Event) : list Event * R :=
  match p with
  | Ret r => (h, r)
  | Fetch url key k =>
      let a := on_fetch w h url key in
      run w (k a) (h ++ [EvFetch url key a])
  | Connect rpc pk tok k =>
      let a := on_connect w h rpc pk tok in
      run w (k a) (h ++ [EvConnect rpc pk tok a])
  | Transfer to amt k =>
      let a := on_transfer w h to amt in
      run w (k a) (h ++ [EvTransfer to amt a])
  | Wait tx c t k =>
      let a := on_wait w h tx c t in
      run w (k a) (h ++ [EvWait tx c t a])
  end.

Definition is_transfer (ev : Event) : bool :=
  match ev with EvTransfer _ _ _ => true | _ => false end.

(** Calls that reach the chain client (everything but the identity
    service). *)
Definition is_chain_call (ev : Event) : bool :=
  match ev with EvFetch _ _ _ => false | _ => true end.

(** Number of [contract.transfer] submissions in a trace. *)
Definition submit_count (tr : list Event) : nat :=
  List.length (filter is_transfer tr).

End Chain.

(** ** HTTP responses *)

Module Http.
Import JS.

(** A member of the JSON document passed to [res.json]. *)
Inductive Field : Type :=
| FString (s : string)
| FBool (b : bool)
| FInt (z : Z)
| FNumber (n : Number)
| FStrings (l : list string)
| FFlags (l : list (string * bool))
| FOptString (s : option string).

Record Response := mkResponse { status_code : Z; body : list (string * Field) }.

(** [res.status(code).json(doc)]. *)
Definition json (code : Z) (doc : list (string * Field)) : Response :=
  mkResponse code doc.

Definition field (r : Response) (name : string) : option Field :=
  assoc (body r) name.

End Http.

(** ** [tx-signing-service/index.js]: the v3.0 service *)

Module Service.
Import JS Chain Http.

(** The module-level constants read from [process.env] at start-up.  A
    variable that is not set is [None]. *)
Record Config := mkConfig {
  GATEWAY_PRIVATE_KEY : option string;
  AGENTPAY_API_URL : string;
  OWNER_API_KEY : option string;
  COMMISSION_RATE : Number;
  COMMISSION_ADDRESS : option string;
  BASE_RPC : option string;
  ETHEREUM_RPC : option string;
  POLYGON_RPC : option string;
  ARBITRUM_RPC : option string
}.

(** [process.env.X || fallback]. *)
Definition or_default (x : option string) (fallback : string) : string :=
  match x with
  | Some s => if String.eqb s EmptyString then fallback else s
  | None => fallback
  end.

Record Token := mkToken { decimals : Z; contracts : list (string * string) }.

Definition TOKENS : list (string * Token) :=
  [ ("USDC", mkToken 6
       [ ("base", "0x833589fCD6eDb6E08f4c7C32D4f71b54bdA02913");
         ("ethereum", "0xA0b86991c6218b36c1d19D4a2e9Eb0cE3606eB48");
         ("polygon", "0x3c499c542cEF5E3811e1192ce70d8cC03d5c3359");
         ("arbitrum", "0xaf88d065e77c8cC2239327C5EDb3A432268e5831") ]);
    ("USDT", mkToken 6
       [ ("ethereum", "0xdAC17F958D2ee523a2206206994597C13D831ec7");
         ("polygon", "0xc2132D05D31c914a87C6611C10748AEb04B58e8F");
         ("arbitrum", "0xFd086bC7CD5C481DCC9C85ebE478A1C0b69FCbb9") ]);
    ("DAI", mkToken 18
       [ ("base", "0x50c5725949A6F0c72E6C4a641F24049A917DB0Cb");
         ("ethereum", "0x6B175474E89094C44Da98b954EedeAC495271d0F");
         ("polygon", "0x8f3Cf7ad23Cd3CaDbD9735AFf958023239c6A063");
         ("arbitrum", "0xDA10009cBd5D07dd0CeCc66161FC93D7c9000da1") ]) ].

Definition RPCS (cfg : Config) : list (string * string) :=
  [ ("base", or_default (BASE_RPC cfg) "https://mainnet.base.org");
    ("ethereum", or_default (ETHEREUM_RPC cfg) "https://cloudflare-eth.com");
    ("polygon", or_default (POLYGON_RPC cfg) "https://polygon-rpc.com");
    ("arbitrum", or_default (ARBITRUM_RPC cfg) "https://arb1.arbitrum.io/rpc") ].

Definition EXPLORERS : list (string * string) :=
  [ ("base", "https://basescan.org");
    ("ethereum", "https://etherscan.io");
    ("polygon", "https://polygonscan.com");
    ("arbitrum", "https://arbiscan.io") ].

(** The value of [table[key]] when it is truthy. *)
Definition truthy_entry (l : Lookup string) : option Ref :=
  match l with
  | Own s => if String.eqb s EmptyString then None else Some (RefString s)
  | Inherited n => Some (RefInherited n)
  | Undefined => None
  end.

(** [`${table[key]}`]. *)
Definition show_entry (l : Lookup string) : string :=
  match l with
  | Own s => s
  | Inherited n => show_inherited n
  | Undefined => "undefined"
  end.

(** The request as the handler reads it: the [x-api-key] header and the
    four members of the JSON body (strings on the wire; [None] when the
    header or member is absent). *)
Record Request := mkRequest {
  x_api_key : option string;
  merchant_address : option string;
  total_amount : option string;
  token : option string;
  chain : option string
}.

(** [apiKey !== OWNER_API_KEY]. *)
Definition strict_neq (a b : option string) : bool :=
  match a, b with
  | Some x, Some y => negb (String.eqb x y)
  | None, None => false
  | _, _ => true
  end.

(** [verifyOwnerApiKey(apiKey)] (index.js, lines 83-114). *)
Definition verifyOwnerApiKey (cfg : Config) (apiKey : option string) : Prog bool :=
  if falsy (OWNER_API_KEY cfg) then Ret true
  else if strict_neq apiKey (OWNER_API_KEY cfg) then Ret false
  else
    Fetch (AGENTPAY_API_URL cfg ++ "/v1/users/me") (show apiKey) (fun response =>
      match response with
      | FetchFailed _ => Ret false
      | FetchResponse ok user =>
          if negb ok then Ret false
          else match user with
               | JsonValue => Ret true
               | JsonNull | JsonThrows _ => Ret false
               end
      end).

(** Step 5 of the handler (lines 234-236): the rate in whole basis points,
    [BigInt(Math.floor(COMMISSION_RATE * 10000))]. *)
Definition rate_basis_points (rate : Number) : JsError + Z :=
  BigInt_of_floor (Number_mul rate (Number_of_Z 10000)).

(** [totalAmountBN * bps / BigInt(10000)]; BigInt division truncates
    towards zero. *)
Definition commissionAmountBN (totalAmountBN bps : Z) : Z :=
  Z.quot (totalAmountBN * bps) 10000.

Definition merchantAmountBN (totalAmountBN bps : Z) : Z :=
  totalAmountBN - commissionAmountBN totalAmountBN bps.

(** The split of lines 234-236 as one function of the rate and the total:
    the pair (commission, merchant), or the [RangeError] of the rate. *)
Definition split (rate : Number) (totalAmountBN : Z) : JsError + (Z * Z) :=
  match rate_basis_points rate with
  | inl e => inl e
  | inr bps => inr (commissionAmountBN totalAmountBN bps,
                    merchantAmountBN totalAmountBN bps)
  end.

(** [Number(amount) / (10 ** decimals)], for display only. *)
Definition to_usd (amount : Z) (decimals : Z) : Number :=
  Number_div (Number_of_Z amount) (Number_of_Z (10 ^ decimals)).

(** [receipt.status !== 1]. *)
Definition failed_on_chain (receipt : Receipt) : bool :=
  match status receipt with
  | Some 1 => false
  | _ => true
  end.

(** The success document of step 10 (lines 285-327; the [timestamp]
    member, the clock reading at the time of the answer, is left out). *)
Definition success (cfg : Config) (commission_address merchant total : string)
    (tok chn : string) (tk : Token) (from : string)
    (totalBN commissionBN merchantBN : Z)
    (tx1 : Tx) (receipt1 : Receipt) (tx2 : Tx) (receipt2 : Receipt) : Response :=
  let explorer := show_entry (get EXPLORERS chn) in
  json 200
    [ ("success", FBool true);
      ("txHash", FString (hash tx2));
      ("tx_hash", FString (hash tx2));
      ("blockNumber", FInt (blockNumber receipt2));
      ("explorerUrl", FString (explorer ++ "/tx/" ++ hash tx2));
      ("txHashCommission", FString (hash tx1));
      ("tx_hash_commission", FString (hash tx1));
      ("blockNumberCommission", FInt (blockNumber receipt1));
      ("explorerUrlCommission", FString (explorer ++ "/tx/" ++ hash tx1));
      ("from", FString from);
      ("merchant", FString merchant);
      ("commission_address", FString commission_address);
      ("total_amount", FString total);
      ("merchant_amount", FString (BigInt_toString merchantBN));
      ("commission_amount", FString (BigInt_toString commissionBN));
      ("commission_rate", FNumber (COMMISSION_RATE cfg));
      ("token", FString tok);
      ("chain", FString chn);
      ("total_usd", FNumber (to_usd totalBN (decimals tk)));
      ("merchant_usd", FNumber (to_usd merchantBN (decimals tk)));
      ("commission_usd", FNumber (to_usd commissionBN (decimals tk)));
      ("gasUsed", FString (BigInt_toString (gasUsed receipt1 + gasUsed receipt2))) ].

(** Steps 8-10 (lines 256-327): the two transfers on the connected
    contract, each awaited with [tx.wait(1, 60000)]. *)
Definition transfers (cfg : Config) (commission_address merchant total : string)
    (tok chn : string) (tk : Token) (from : string)
    (totalBN commissionBN merchantBN : Z) : Prog (JsError + Response) :=
  Transfer commission_address (AmountString (BigInt_toString commissionBN)) (fun r =>
  match r with
  | inl e => Ret (inl e)
  | inr tx1 =>
  Wait tx1 1 60000 (fun r =>
  match r with
  | inl e => Ret (inl e)
  | inr receipt1 =>
  if failed_on_chain receipt1
  then Ret (inl (Error "Commission transaction failed on-chain"))
  else
  Transfer merchant (AmountString (BigInt_toString merchantBN)) (fun r =>
  match r with
  | inl e => Ret (inl e)
  | inr tx2 =>
  Wait tx2 1 60000 (fun r =>
  match r with
  | inl e => Ret (inl e)
  | inr receipt2 =>
  if failed_on_chain receipt2
  then Ret (inl (Error "Merchant transaction failed on-chain"))
  else Ret (inr (success cfg commission_address merchant total tok chn tk from
                   totalBN commissionBN merchantBN tx1 receipt1 tx2 receipt2))
  end) end) end) end).

(** Steps 2-7 (lines 189-254): validation of the body, the split, and
    the connection to the chain. *)
Definition payment (cfg : Config) (req : Request) : Prog (JsError + Response) :=
  match merchant_address req, total_amount req, token req, chain req with
  | Some merchant, Some total, Some tok, Some chn =>
    if (String.eqb merchant EmptyString || String.eqb total EmptyString || String.eqb tok EmptyString
        || String.eqb chn EmptyString)%bool
    then Ret (inr (json 400
           [ ("error", FString "Invalid request");
             ("message", FString "Required fields: merchant_address, total_amount, token, chain") ]))
    else
    match truthy_entry (get (RPCS cfg) chn) with
    | None => Ret (inr (json 400
           [ ("error", FString ("Unsupported chain: " ++ chn));
             ("supported", FStrings (keys (RPCS cfg))) ]))
    | Some rpc =>
    match get TOKENS tok with
    | Undefined => Ret (inr (json 400
           [ ("error", FString ("Unsupported token: " ++ tok));
             ("supported", FStrings (keys TOKENS)) ]))
    | Inherited _ =>
        (* [TOKENS[token].contracts] is [undefined] on an inherited member *)
        Ret (inl (Error ("Cannot read properties of undefined (reading '"
                         ++ chn ++ "')")))
    | Own tk =>
    match truthy_entry (get (contracts tk) chn) with
    | None => Ret (inr (json 400
           [ ("error", FString (tok ++ " not supported on " ++ chn)) ]))
    | Some tokenAddress =>
    match COMMISSION_ADDRESS cfg with
    | Some commission_address =>
      if String.eqb commission_address EmptyString
      then Ret (inr (json 500
           [ ("error", FString "Commission address not configured");
             ("message", FString "Set COMMISSION_ADDRESS environment variable") ]))
      else
      match BigInt_of_string total with
      | inl e => Ret (inl e)
      | inr totalBN =>
      match split (COMMISSION_RATE cfg) totalBN with
      | inl e => Ret (inl e)
      | inr (commissionBN, merchantBN) =>
        Connect rpc (GATEWAY_PRIVATE_KEY cfg) tokenAddress (fun r =>
        match r with
        | inl e => Ret (inl e)
        | inr from =>
            transfers cfg commission_address merchant total tok chn tk from
              totalBN commissionBN merchantBN
        end)
      end end
    | None => Ret (inr (json 500
           [ ("error", FString "Commission address not configured");
             ("message", FString "Set COMMISSION_ADDRESS environment variable") ]))
    end end end end
  | _, _, _, _ => Ret (inr (json 400
           [ ("error", FString "Invalid request");
             ("message", FString "Required fields: merchant_address, total_amount, token, chain") ]))
  end.

(** The [try] block of the handler (lines 169-328). *)
Definition sign_payment_try (cfg : Config) (req : Request) : Prog (JsError + Response) :=
  if falsy (x_api_key req)
  then Ret (inr (json 401
         [ ("error", FString "Unauthorized");
           ("message", FString "x-api-key header required (owner API key only)") ]))
  else
    bind (verifyOwnerApiKey cfg (x_api_key req)) (fun isOwner =>
      if negb isOwner
      then Ret (inr (json 403
             [ ("error", FString "Forbidden");
               ("message", FString "This signing service only accepts requests from the owner. Your API key is not authorized.") ]))
      else payment cfg req).

(** The [catch] block (lines 329-343). *)
Definition sign_payment_catch (error : JsError) : Response :=
  if code_is error "INSUFFICIENT_FUNDS"
  then json 400
         [ ("error", FString "Insufficient funds");
           ("message", FString "Gateway wallet does not have enough tokens or ETH for gas") ]
  else json 500
         [ ("error", FString "Payment failed");
           ("message", FString (err_message error)) ].

(** [app.post('/sign-payment', ...)]. *)
Definition sign_payment (cfg : Config) (req : Request) : Prog Response :=
  bind (sign_payment_try cfg req) (fun r =>
    match r with
    | inl error => Ret (sign_payment_catch error)
    | inr response => Ret response
    end).

End Service.

(** ** The older single-transfer service ([POST /sign-and-send]) *)

Module Legacy.
Import JS Chain Http.

Record Config := mkConfig {
  PRIVATE_KEY : option string;
  AUTH_TOKEN : option string;
  BASE_RPC : option string;
  ETHEREUM_RPC : option string;
  POLYGON_RPC : option string;
  ARBITRUM_RPC : option string
}.

Definition RPCS (cfg : Config) : list (string * string) :=
  [ ("base", Service.or_default (BASE_RPC cfg) "https://mainnet.base.org");
    ("ethereum", Service.or_default (ETHEREUM_RPC cfg) "https://cloudflare-eth.com");
    ("polygon", Service.or_default (POLYGON_RPC cfg) "https://polygon-rpc.com");
    ("arbitrum", Service.or_default (ARBITRUM_RPC cfg) "https://arb1.arbitrum.io/rpc") ].

(** The token and explorer tables are the same literals as in the v3.0
    service. *)
Definition TOKENS : list (string * Service.Token) := Service.TOKENS.
Definition EXPLORERS : list (string * string) := Service.EXPLORERS.

Record Request := mkRequest {
  authorization : option string;
  to : option string;
  amount : option string;
  token : option string;
  chain : option string
}.

(** [s.replace(pattern, replacement)] with a string pattern: the first
    occurrence only. *)
Definition replace_first (pattern replacement s : string) : string :=
  match String.index 0 pattern s with
  | Some i =>
      String.substring 0 i s ++ replacement
      ++ String.substring (i + String.length pattern)
                          (String.length s - (i + String.length pattern)) s
  | None => s
  end.

(** The longest prefix of [s] made of digits of [radix], read as an
    integer; [None] when that prefix is empty. *)
Fixpoint leading_digits (radix : Z) (s : string) (acc : option Z) : option Z :=
  match s with
  | EmptyString => acc
  | String c rest =>
      match digit_value radix c with
      | Some d =>
          leading_digits radix rest
            (Some (match acc with Some a => a * radix + d | None => d end))
      | None => acc
      end
  end.

(** [parseInt(s)] without a radix: leading white space and a sign are
    skipped, [0x] selects radix 16, the longest digit prefix is read and
    the rest ignored.  [None] is [NaN]; [Some z] is the integer whose
    nearest Number is returned. *)
Definition parseInt (s : string) : option Z :=
  let t := trim_start s in
  let '(negative, t) :=
    match t with
    | String "-" rest => (true, rest)
    | String "+" rest => (false, rest)
    | _ => (false, t)
    end in
  let '(radix, t) :=
    match t with
    | String "0" (String ("x" | "X") rest) => (16, rest)
    | _ => (10, t)
    end in
  match leading_digits radix t None with
  | Some z => Some (if negative then - z else z)
  | None => None
  end.

(** The [try] block of the handler. *)
Definition sign_and_send_try (cfg : Config) (req : Request) : Prog (JsError + Response) :=
  if falsy (PRIVATE_KEY cfg)
  then Ret (inr (json 500
         [ ("error", FString "Service not configured");
           ("message", FString "PRIVATE_KEY environment variable not set") ]))
  else
  if (truthy (AUTH_TOKEN cfg)
      && Service.strict_neq
           (option_map (replace_first "Bearer " EmptyString) (authorization req))
           (AUTH_TOKEN cfg))%bool
  then Ret (inr (json 401 [ ("error", FString "Unauthorized") ]))
  else
  if (falsy (to req) || falsy (amount req) || falsy (token req)
      || falsy (chain req))%bool
  then Ret (inr (json 400
         [ ("error", FString "Missing required parameters");
           ("required", FStrings ["to"; "amount"; "token"; "chain"]);
           ("provided", FFlags [ ("to", truthy (to req));
                                 ("amount", truthy (amount req));
                                 ("token", truthy (token req));
                                 ("chain", truthy (chain req)) ]) ]))
  else
  let recipient := show (to req) in
  let amt := show (amount req) in
  let tok := show (token req) in
  let chn := show (chain req) in
  match Service.truthy_entry (get (RPCS cfg) chn) with
  | None => Ret (inr (json 400
         [ ("error", FString ("Unsupported chain: " ++ chn));
           ("supported", FStrings (keys (RPCS cfg))) ]))
  | Some rpc =>
  match get TOKENS tok with
  | Undefined => Ret (inr (json 400
         [ ("error", FString ("Unsupported token: " ++ tok));
           ("supported", FStrings (keys TOKENS)) ]))
  | Inherited _ =>
      Ret (inl (Error ("Cannot read properties of undefined (reading '"
                       ++ chn ++ "')")))
  | Own tk =>
  match Service.truthy_entry (get (Service.contracts tk) chn) with
  | None => Ret (inr (json 400
         [ ("error", FString (tok ++ " not supported on " ++ chn));
           ("message", FString (tok ++ " is not available on " ++ chn ++ " network")) ]))
  | Some tokenAddress =>
  match parseInt amt with
  | None => Ret (inr (json 400
         [ ("error", FString "Invalid amount");
           ("message", FString "Amount must be a positive integer in token units") ]))
  | Some amountInt =>
    if amountInt <=? 0
    then Ret (inr (json 400
         [ ("error", FString "Invalid amount");
           ("message", FString "Amount must be a positive integer in token units") ]))
    else
    Connect rpc (PRIVATE_KEY cfg) tokenAddress (fun r =>
    match r with
    | inl e => Ret (inl e)
    | inr from =>
    Transfer recipient (AmountNumber (Number_of_Z amountInt)) (fun r =>
    match r with
    | inl e => Ret (inl e)
    | inr tx =>
    Wait tx 1 60000 (fun r =>
    match r with
    | inl e => Ret (inl e)
    | inr receipt =>
        Ret (inr (json 200
          [ ("success", FBool true);
            ("tx_hash", FString (hash tx));
            ("from", FString from);
            ("to", FString recipient);
            ("amount", FString amt);
            ("token", FString tok);
            ("chain", FString chn);
            ("block_number", FInt (blockNumber receipt));
            ("gas_used", FString (BigInt_toString (gasUsed receipt)));
            ("explorer_url",
             FString (Service.show_entry (get EXPLORERS chn) ++ "/tx/" ++ hash tx));
            ("message", FString "Transaction signed and confirmed successfully") ]))
    end) end) end)
  end end end end.

(** The [catch] block. *)
Definition sign_and_send_catch (error : JsError) : Response :=
  if code_is error "INSUFFICIENT_FUNDS"
  then json 400
         [ ("error", FString "Insufficient funds");
           ("message", FString "Wallet does not have enough tokens or ETH for gas");
           ("details", FString (err_message error)) ]
  else if (code_is error "NONCE_EXPIRED" || code_is error "REPLACEMENT_UNDERPRICED")%bool
  then json 400
         [ ("error", FString "Transaction conflict");
           ("message", FString "Another transaction is pending. Try again in a few seconds.");
           ("details", FString (err_message error)) ]
  else if code_is error "TIMEOUT"
  then json 408
         [ ("error", FString "Transaction timeout");
           ("message", FString "Transaction was sent but confirmation timed out. Check explorer.");
           ("details", FString (err_message error)) ]
  else json 500
         [ ("error", FString "Transaction failed");
           ("message", FString (err_message error));
           ("code", FOptString (err_code error)) ].

(** [app.post('/sign-and-send', ...)]. *)
Definition sign_and_send (cfg : Config) (req : Request) : Prog Response :=
  bind (sign_and_send_try cfg req) (fun r =>
    match r with
    | inl error => Ret (sign_and_send_catch error)
    | inr response => Ret response
    end).

End Legacy.

(** ** Vocabulary of the properties *)

Module Props.
Import JS Chain Http.

(** The rational a finite Number denotes. *)
Definition Number_value (x : Number) : option Q :=
  match x with
  | S754_zero _ => Some 0%Q
  | S754_finite s m e =>
      Some (inject_Z (cond_Zopp s (Zpos m)) * Qpower 2 e)%Q
  | _ => None
  end.

Definition Number_zero : Number := S754_zero false.
Definition Number_one : Number := Eval vm_compute in Number_of_Z 1.

(** A rate in the open interval (0,1). *)
Definition rate_in_range (rate : Number) : Prop :=
  is_Number rate /\ Number_lt Number_zero rate = true
  /\ Number_lt rate Number_one = true.

(** [needle] occurs in [s]. *)
Definition occurs (needle s : string) : bool :=
  match String.index 0 needle s with
  | Some _ => true
  | None => false
  end.

Definition field_mentions (needle : string) (f : Field) : bool :=
  match f with
  | FString s => occurs needle s
  | FStrings l => existsb (occurs needle) l
  | FOptString (Some s) => occurs needle s
  | _ => false
  end.

(** Some member of the response document contains [needle]. *)
Definition response_mentions (r : Response) (needle : string) : bool :=
  existsb (fun kv => field_mentions needle (snd kv)) (body r).

(** [RPCS[chain]] is truthy. *)
Definition chain_supported (cfg : Service.Config) (chain : option string) : bool :=
  match Service.truthy_entry (get (Service.RPCS cfg) (show chain)) with
  | Some _ => true
  | None => false
  end.

(** One of the four body members is missing (or empty). *)
Definition missing_fields (req : Service.Request) : bool :=
  (falsy (Service.merchant_address req) || falsy (Service.total_amount req)
   || falsy (Service.token req) || falsy (Service.chain req))%bool.

Definition MissingFields : Response :=
  json 400
    [ ("error", FString "Invalid request");
      ("message", FString "Required fields: merchant_address, total_amount, token, chain") ].

Definition MissingCredential : Response :=
  json 401
    [ ("error", FString "Unauthorized");
      ("message", FString "x-api-key header required (owner API key only)") ].

Definition Forbidden : Response :=
  json 403
    [ ("error", FString "Forbidden");
      ("message", FString "This signing service only accepts requests from the owner. Your API key is not authorized.") ].

(** The commission leg was submitted and confirmed with status 1 as the
    last two calls of [pre], and nothing was submitted before it. *)
Definition commission_confirmed (cfg : Service.Config) (pre : list Event) : Prop :=
  exists h0 caddr camt tx1 rc1,
    pre = (h0 ++ [EvTransfer caddr camt (inr tx1); EvWait tx1 1 60000 (inr rc1)])%list
    /\ submit_count h0 = 0%nat
    /\ Service.COMMISSION_ADDRESS cfg = Some caddr
    /\ status rc1 = Some 1.

(** The traces the two legs (steps 8-10) can leave, with the outcome of
    the [try] block: an exception, or the answer.  [caddr] and [camt]
    are the recipient and amount of the commission submission, [maddr]
    and [mamt] those of the merchant submission. *)
Inductive legs (caddr maddr : string) (camt mamt : Amount)
  : list Event -> JsError + Response -> Prop :=
| legs_commission_rejected e :
    legs caddr maddr camt mamt [EvTransfer caddr camt (inl e)] (inl e)
| legs_commission_unconfirmed tx1 e :
    legs caddr maddr camt mamt
      [EvTransfer caddr camt (inr tx1); EvWait tx1 1 60000 (inl e)] (inl e)
| legs_commission_failed tx1 rc1 :
    status rc1 <> Some 1 ->
    legs caddr maddr camt mamt
      [EvTransfer caddr camt (inr tx1); EvWait tx1 1 60000 (inr rc1)]
      (inl (Error "Commission transaction failed on-chain"))
| legs_merchant_rejected tx1 rc1 e :
    status rc1 = Some 1 ->
    legs caddr maddr camt mamt
      [EvTransfer caddr camt (inr tx1); EvWait tx1 1 60000 (inr rc1);
       EvTransfer maddr mamt (inl e)] (inl e)
| legs_merchant_unconfirmed tx1 rc1 tx2 e :
    status rc1 = Some 1 ->
    legs caddr maddr camt mamt
      [EvTransfer caddr camt (inr tx1); EvWait tx1 1 60000 (inr rc1);
       EvTransfer maddr mamt (inr tx2); EvWait tx2 1 60000 (inl e)] (inl e)
| legs_merchant_failed tx1 rc1 tx2 rc2 :
    status rc1 = Some 1 -> status rc2 <> Some 1 ->
    legs caddr maddr camt mamt
      [EvTransfer caddr camt (inr tx1); EvWait tx1 1 60000 (inr rc1);
       EvTransfer maddr mamt (inr tx2); EvWait tx2 1 60000 (inr rc2)]
      (inl (Error "Merchant transaction failed on-chain"))
| legs_both_confirmed tx1 rc1 tx2 rc2 resp :
    status rc1 = Some 1 -> status rc2 = Some 1 ->
    status_code resp = 200 ->
    field resp "tx_hash_commission" = Some (FString (hash tx1)) ->
    field resp "tx_hash" = Some (FString (hash tx2)) ->
    legs caddr maddr camt mamt
      [EvTransfer caddr camt (inr tx1); EvWait tx1 1 60000 (inr rc1);
       EvTransfer maddr mamt (inr tx2); EvWait tx2 1 60000 (inr rc2)]
      (inr resp).

(** The ways the merchant leg can fail, as the calls [post] made for it
    and the exception [e] that reaches the [catch] block: the submission
    is rejected, the wait throws, or the receipt reports a failure. *)
Inductive merchant_failure (maddr : string) : list Event -> JsError -> Prop :=
| merchant_rejected mamt e :
    merchant_failure maddr [EvTransfer maddr mamt (inl e)] e
| merchant_unconfirmed mamt tx2 e :
    merchant_failure maddr
      [EvTransfer maddr mamt (inr tx2); EvWait tx2 1 60000 (inl e)] e
| merchant_reverted mamt tx2 rc2 :
    status rc2 <> Some 1 ->
    merchant_failure maddr
      [EvTransfer maddr mamt (inr tx2); EvWait tx2 1 60000 (inr rc2)]
      (Error "Merchant transaction failed on-chain").

(** What the handler answers for the outcome of its [try] block. *)
Definition answer (r : JsError + Response) : Response :=
  match r with
  | inl error => Service.sign_payment_catch error
  | inr response => response
  end.

(** The chain-client part of a request's trace, with the answer. *)
Inductive payment_trace (cfg : Service.Config) (req : Service.Request)
  : list Event -> Response -> Prop :=
| trace_no_chain_call resp :
    payment_trace cfg req [] resp
| trace_connect_failed rpc pk tok e :
    payment_trace cfg req [EvConnect rpc pk tok (inl e)] (Service.sign_payment_catch e)
| trace_legs rpc pk tok from caddr maddr total totalBN commissionBN merchantBN tr r :
    Service.COMMISSION_ADDRESS cfg = Some caddr ->
    Service.merchant_address req = Some maddr ->
    Service.total_amount req = Some total ->
    BigInt_of_string total = inr totalBN ->
    Service.split (Service.COMMISSION_RATE cfg) totalBN = inr (commissionBN, merchantBN) ->
    legs caddr maddr (AmountString (BigInt_toString commissionBN))
         (AmountString (BigInt_toString merchantBN)) tr r ->
    payment_trace cfg req (EvConnect rpc pk tok (inr from) :: tr) (answer r).

(** Splits a concrete list at the position given by an equation
    [l = pre ++ ev :: post], one case per position. *)
Ltac crack :=
  repeat match goal with
  | H : [] = (?pre ++ _ :: _)%list |- _ => destruct pre; discriminate H
  | H : (_ :: _) = (?pre ++ _ :: _)%list |- _ =>
      destruct pre as [|? pre]; simpl in H; inversion H; clear H; subst
  end.

End Props.

(** ** Sample configurations, requests and worlds *)

Module Samples.
Import JS Chain Http Props.

(** [parseFloat('0.005')], the default rate. *)
Definition default_rate : Number :=
  Eval vm_compute in Number_div (Number_of_Z 5) (Number_of_Z 1000).

(** 2^-14, about 0.6 basis points. *)
Definition tiny_rate : Number := S754_finite false 4503599627370496 (-66).

(** No owner key configured. *)
Definition open_cfg : Service.Config :=
  Service.mkConfig (Some "0xKEY") "https://api.agentgatepay.com" None
    default_rate (Some "0xC0FFEE") None None None None.

(** Owner key configured. *)
Definition owner_cfg : Service.Config :=
  Service.mkConfig (Some "0xKEY") "https://api.agentgatepay.com" (Some "owner-key")
    default_rate (Some "0xC0FFEE") None None None None.

Definition request (apiKey total chain : option string) : Service.Request :=
  Service.mkRequest apiKey (Some "0xMERCHANT") total (Some "USDC") chain.

Definition usdc_on_base : Service.Request :=
  request (Some "owner-key") (Some "15000000") (Some "base").

Definition legacy_cfg : Legacy.Config :=
  Legacy.mkConfig (Some "0xKEY") None None None None None.

Definition legacy_request (amount : string) : Legacy.Request :=
  Legacy.mkRequest None (Some "0xMERCHANT") (Some amount) (Some "USDC") (Some "base").

(** A chain client that accepts every submission (hashes [0xc1], then
    [0xm2]) and confirms the first with [st1], the others with [st2]. *)
Definition confirming (st1 st2 : option Z) : World :=
  mkWorld
    (fun _ _ _ => FetchResponse true JsonValue)
    (fun _ _ _ _ => inr "0xWALLET")
    (fun h _ _ => inr (mkTx (if Nat.eqb (submit_count h) 0 then "0xc1" else "0xm2")))
    (fun _ tx _ _ =>
       inr (mkReceipt (if String.eqb (hash tx) "0xc1" then st1 else st2) 100 21000)).

(** A chain client whose confirmation wait runs into the 60 s timeout. *)
Definition timing_out : World :=
  mkWorld
    (fun _ _ _ => FetchResponse true JsonValue)
    (fun _ _ _ _ => inr "0xWALLET")
    (fun _ _ _ => inr (mkTx "0xc1"))
    (fun _ _ _ _ => inl (mkError (Some "TIMEOUT") "wait for transaction timeout")).

(** The calls that precede the two legs when the owner asks for USDC
    on Base under [owner_cfg]. *)
Definition opening : list Event :=
  [ EvFetch "https://api.agentgatepay.com/v1/users/me" "owner-key"
      (FetchResponse true JsonValue);
    EvConnect (RefString "https://mainnet.base.org") (Some "0xKEY")
      (RefString "0x833589fCD6eDb6E08f4c7C32D4f71b54bdA02913") (inr "0xWALLET") ].

(** The commission leg of [usdc_on_base], confirmed with [st]. *)
Definition commission_leg (st : option Z) : list Event :=
  [ EvTransfer "0xC0FFEE" (AmountString "75000") (inr (mkTx "0xc1"));
    EvWait (mkTx "0xc1") 1 60000 (inr (mkReceipt st 100 21000)) ].

(** The merchant leg of [usdc_on_base], confirmed with [st]. *)
Definition merchant_leg (st : option Z) : list Event :=
  [ EvTransfer "0xMERCHANT" (AmountString "14925000") (inr (mkTx "0xm2"));
    EvWait (mkTx "0xm2") 1 60000 (inr (mkReceipt st 100 21000)) ].

End Samples.

(** ** The request flow of [/sign-payment], stage by stage *)

Module Flow.
Import JS Chain Http Service Props.

(** What steps 2-5 have established when the handler goes on to connect:
    the four members, the RPC endpoint and the token entry they select,
    the commission address and the split. *)
Record Checked := mkChecked {
  ck_merchant : string;
  ck_total : string;
  ck_token : string;
  ck_chain : string;
  ck_rpc : Ref;
  ck_tk : Token;
  ck_address : Ref;
  ck_commission_address : string;
  ck_totalBN : Z;
  ck_commissionBN : Z;
  ck_merchantBN : Z
}.

(** Steps 2-5 of the handler (lines 189-239) on their own: the answer or
    exception that ends the request, or the checked data. *)
Definition checks (cfg : Config) (req : Request) : (JsError + Response) + Checked :=
  match merchant_address req, total_amount req, token req, chain req with
  | Some merchant, Some total, Some tok, Some chn =>
    if (String.eqb merchant EmptyString || String.eqb total EmptyString
        || String.eqb tok EmptyString || String.eqb chn EmptyString)%bool
    then inl (inr MissingFields)
    else
    match truthy_entry (get (RPCS cfg) chn) with
    | None => inl (inr (json 400
           [ ("error", FString ("Unsupported chain: " ++ chn));
             ("supported", FStrings (keys (RPCS cfg))) ]))
    | Some rpc =>
    match get TOKENS tok with
    | Undefined => inl (inr (json 400
           [ ("error", FString ("Unsupported token: " ++ tok));
             ("supported", FStrings (keys TOKENS)) ]))
    | Inherited _ =>
        inl (inl (Error ("Cannot read properties of undefined (reading '"
                         ++ chn ++ "')")))
    | Own tk =>
    match truthy_entry (get (contracts tk) chn) with
    | None => inl (inr (json 400
           [ ("error", FString (tok ++ " not supported on " ++ chn)) ]))
    | Some tokenAddress =>
    match COMMISSION_ADDRESS cfg with
    | Some commission_address =>
      if String.eqb commission_address EmptyString
      then inl (inr (json 500
           [ ("error", FString "Commission address not configured");
             ("message", FString "Set COMMISSION_ADDRESS environment variable") ]))
      else
      match BigInt_of_string total with
      | inl e => inl (inl e)
      | inr totalBN =>
      match split (COMMISSION_RATE cfg) totalBN with
      | inl e => inl (inl e)
      | inr (commissionBN, merchantBN) =>
          inr (mkChecked merchant total tok chn rpc tk tokenAddress
                 commission_address totalBN commissionBN merchantBN)
      end end
    | None => inl (inr (json 500
           [ ("error", FString "Commission address not configured");
             ("message", FString "Set COMMISSION_ADDRESS environment variable") ]))
    end end end end
  | _, _, _, _ => inl (inr MissingFields)
  end.

(** Steps 6-10 (lines 245-327) for checked data. *)
Definition proceed (cfg : Config) (c : Checked) : Prog (JsError + Response) :=
  Connect (ck_rpc c) (GATEWAY_PRIVATE_KEY cfg) (ck_address c) (fun r =>
    match r with
    | inl e => Ret (inl e)
    | inr from =>
        transfers cfg (ck_commission_address c) (ck_merchant c) (ck_total c)
          (ck_token c) (ck_chain c) (ck_tk c) from
          (ck_totalBN c) (ck_commissionBN c) (ck_merchantBN c)
    end).

Definition commission_event (c : Checked) (answer : JsError + Tx) : Event :=
  EvTransfer (ck_commission_address c)
    (AmountString (BigInt_toString (ck_commissionBN c))) answer.

Definition merchant_event (c : Checked) (answer : JsError + Tx) : Event :=
  EvTransfer (ck_merchant c)
    (AmountString (BigInt_toString (ck_merchantBN c))) answer.

Definition connect_event (cfg : Config) (c : Checked) (answer : JsError + string) : Event :=
  EvConnect (ck_rpc c) (GATEWAY_PRIVATE_KEY cfg) (ck_address c) answer.

(** The calls of steps 8-10 and the outcome of the [try] block, with
    the success document spelled out. *)
Inductive settled (cfg : Config) (c : Checked) (from : string)
  : list Event -> JsError + Response -> Prop :=
| commission_rejected e :
    settled cfg c from [commission_event c (inl e)] (inl e)
| commission_unconfirmed tx1 e :
    settled cfg c from
      [commission_event c (inr tx1); EvWait tx1 1 60000 (inl e)] (inl e)
| commission_reverted tx1 rc1 :
    status rc1 <> Some 1 ->
    settled cfg c from
      [commission_event c (inr tx1); EvWait tx1 1 60000 (inr rc1)]
      (inl (Error "Commission transaction failed on-chain"))
| merchant_leg_rejected tx1 rc1 e :
    status rc1 = Some 1 ->
    settled cfg c from
      [commission_event c (inr tx1); EvWait tx1 1 60000 (inr rc1);
       merchant_event c (inl e)] (inl e)
| merchant_leg_unconfirmed tx1 rc1 tx2 e :
    status rc1 = Some 1 ->
    settled cfg c from
      [commission_event c (inr tx1); EvWait tx1 1 60000 (inr rc1);
       merchant_event c (inr tx2); EvWait tx2 1 60000 (inl e)] (inl e)
| merchant_leg_reverted tx1 rc1 tx2 rc2 :
    status rc1 = Some 1 -> status rc2 <> Some 1 ->
    settled cfg c from
      [commission_event c (inr tx1); EvWait tx1 1 60000 (inr rc1);
       merchant_event c (inr tx2); EvWait tx2 1 60000 (inr rc2)]
      (inl (Error "Merchant transaction failed on-chain"))
| both_confirmed tx1 rc1 tx2 rc2 :
    status rc1 = Some 1 -> status rc2 = Some 1 ->
    settled cfg c from
      [commission_event c (inr tx1); EvWait tx1 1 60000 (inr rc1);
       merchant_event c (inr tx2); EvWait tx2 1 60000 (inr rc2)]
      (inr (success cfg (ck_commission_address c) (ck_merchant c) (ck_total c)
              (ck_token c) (ck_chain c) (ck_tk c) from
              (ck_totalBN c) (ck_commissionBN c) (ck_merchantBN c)
              tx1 rc1 tx2 rc2)).

(** The verdict [verifyOwnerApiKey] draws from the identity service. *)
Definition verdict (a : FetchAnswer) : bool :=
  match a with
  | FetchResponse true JsonValue => true
  | _ => false
  end.

(** The calls [verifyOwnerApiKey] makes, and what it returns. *)
Inductive verified (cfg : Config) (w : World) (apiKey : option string)
  : list Event -> bool -> Prop :=
| verified_open :
    falsy (OWNER_API_KEY cfg) = true -> verified cfg w apiKey [] true
| verified_mismatch :
    falsy (OWNER_API_KEY cfg) = false ->
    strict_neq apiKey (OWNER_API_KEY cfg) = true ->
    verified cfg w apiKey [] false
| verified_by_identity_service key a :
    falsy (OWNER_API_KEY cfg) = false ->
    apiKey = Some key -> OWNER_API_KEY cfg = Some key ->
    a = on_fetch w [] (AGENTPAY_API_URL cfg ++ "/v1/users/me") key ->
    verified cfg w apiKey
      [EvFetch (AGENTPAY_API_URL cfg ++ "/v1/users/me") key a] (verdict a).

(** Every way a request to [/sign-payment] can go: the calls made, in
    order, and the answer. *)
Inductive outcome (cfg : Config) (req : Request) (w : World)
  : list Event -> Response -> Prop :=
| no_header :
    falsy (x_api_key req) = true ->
    outcome cfg req w [] MissingCredential
| refused auth :
    falsy (x_api_key req) = false ->
    verified cfg w (x_api_key req) auth false ->
    outcome cfg req w auth Forbidden
| invalid auth r :
    falsy (x_api_key req) = false ->
    verified cfg w (x_api_key req) auth true ->
    checks cfg req = inl r ->
    outcome cfg req w auth (answer r)
| connect_failed auth c e :
    falsy (x_api_key req) = false ->
    verified cfg w (x_api_key req) auth true ->
    checks cfg req = inr c ->
    outcome cfg req w (auth ++ [connect_event cfg c (inl e)]) (sign_payment_catch e)
| connected auth c from tr r :
    falsy (x_api_key req) = false ->
    verified cfg w (x_api_key req) auth true ->
    checks cfg req = inr c ->
    settled cfg c from tr r ->
    outcome cfg req w (auth ++ connect_event cfg c (inr from) :: tr) (answer r).

(** The answer of the last call of a trace, when it is an exception of
    the chain client. *)
Definition thrown (ev : Event) : option JsError :=
  match ev with
  | EvConnect _ _ _ (inl e) => Some e
  | EvTransfer _ _ (inl e) => Some e
  | EvWait _ _ _ (inl e) => Some e
  | _ => None
  end.

(** Each submission that returned a transaction is directly followed by
    the wait for that transaction, with 1 confirmation and 60000 ms. *)
Fixpoint waits_follow (tr : list Event) : bool :=
  match tr with
  | [] => true
  | EvTransfer _ _ (inr tx) :: rest =>
      match rest with
      | EvWait tx' c t _ :: rest' =>
          (String.eqb (hash tx') (hash tx) && Z.eqb c 1 && Z.eqb t 60000
           && waits_follow rest')%bool
      | _ => false
      end
  | EvWait _ _ _ _ :: _ => false
  | _ :: rest => waits_follow rest
  end.

Definition count (p : Event -> bool) (tr : list Event) : nat :=
  List.length (filter p tr).

Definition is_fetch (ev : Event) : bool :=
  match ev with EvFetch _ _ _ => true | _ => false end.

Definition is_connect (ev : Event) : bool :=
  match ev with EvConnect _ _ _ _ => true | _ => false end.

Definition is_wait (ev : Event) : bool :=
  match ev with EvWait _ _ _ _ => true | _ => false end.

(** The request carries a key and [verifyOwnerApiKey] accepts it. *)
Definition authorised (cfg : Config) (req : Request) (w : World) : Prop :=
  falsy (x_api_key req) = false
  /\ snd (run w (verifyOwnerApiKey cfg (x_api_key req)) []) = true.

(** The member is there and not empty. *)
Definition present (x : option string) (s : string) : Prop :=
  x = Some s /\ s <> EmptyString.

(** The body has its four members. *)
Definition complete (req : Request) (merchant total tok chn : string) : Prop :=
  present (merchant_address req) merchant /\ present (total_amount req) total
  /\ present (token req) tok /\ present (chain req) chn.

Definition supported_chains : list string := ["base"; "ethereum"; "polygon"; "arbitrum"].
Definition supported_tokens : list string := ["USDC"; "USDT"; "DAI"].


(** An identity service that cannot be reached. *)
Definition identity_down : World :=
  mkWorld
    (fun _ _ _ => FetchFailed (Error "fetch failed"))
    (fun _ _ _ _ => inr "0xWALLET")
    (fun _ _ _ => inr (mkTx "0xc1"))
    (fun _ tx _ _ => inr (mkReceipt (Some 1) 100 21000)).

(** A chain client without funds for the merchant leg. *)
Definition out_of_funds : World :=
  mkWorld
    (fun _ _ _ => FetchResponse true JsonValue)
    (fun _ _ _ _ => inr "0xWALLET")
    (fun h _ _ =>
       if Nat.eqb (submit_count h) 0 then inr (mkTx "0xc1")
       else inl (mkError (Some "INSUFFICIENT_FUNDS") "insufficient funds for gas"))
    (fun _ tx _ _ => inr (mkReceipt (Some 1) 100 21000)).

Definition request_for (tok chn : string) : Request :=
  mkRequest (Some "owner-key") (Some "0xMERCHANT") (Some "15000000") (Some tok) (Some chn).

End Flow.

(** ** The request flow of [/sign-and-send], and [GET /health] *)

Module LegacyFlow.
Import JS Chain Http Legacy.

(** What the handler has established when it goes on to connect. *)
Record Checked := mkChecked {
  lk_to : string;
  lk_amount : string;
  lk_token : string;
  lk_chain : string;
  lk_rpc : Ref;
  lk_tk : Service.Token;
  lk_address : Ref;
  lk_amountInt : Z
}.

(** The handler up to the amount check: the answer or exception that
    ends the request, or the checked data. *)
Definition checks (cfg : Config) (req : Request) : (JsError + Response) + Checked :=
  if falsy (PRIVATE_KEY cfg)
  then inl (inr (json 500
         [ ("error", FString "Service not configured");
           ("message", FString "PRIVATE_KEY environment variable not set") ]))
  else
  if (truthy (AUTH_TOKEN cfg)
      && Service.strict_neq
           (option_map (replace_first "Bearer " EmptyString) (authorization req))
           (AUTH_TOKEN cfg))%bool
  then inl (inr (json 401 [ ("error", FString "Unauthorized") ]))
  else
  if (falsy (to req) || falsy (amount req) || falsy (token req)
      || falsy (chain req))%bool
  then inl (inr (json 400
         [ ("error", FString "Missing required parameters");
           ("required", FStrings ["to"; "amount"; "token"; "chain"]);
           ("provided", FFlags [ ("to", truthy (to req));
                                 ("amount", truthy (amount req));
                                 ("token", truthy (token req));
                                 ("chain", truthy (chain req)) ]) ]))
  else
  let recipient := show (to req) in
  let amt := show (amount req) in
  let tok := show (token req) in
  let chn := show (chain req) in
  match Service.truthy_entry (get (RPCS cfg) chn) with
  | None => inl (inr (json 400
         [ ("error", FString ("Unsupported chain: " ++ chn));
           ("supported", FStrings (keys (RPCS cfg))) ]))
  | Some rpc =>
  match get TOKENS tok with
  | Undefined => inl (inr (json 400
         [ ("error", FString ("Unsupported token: " ++ tok));
           ("supported", FStrings (keys TOKENS)) ]))
  | Inherited _ =>
      inl (inl (Error ("Cannot read properties of undefined (reading '"
                       ++ chn ++ "')")))
  | Own tk =>
  match Service.truthy_entry (get (Service.contracts tk) chn) with
  | None => inl (inr (json 400
         [ ("error", FString (tok ++ " not supported on " ++ chn));
           ("message", FString (tok ++ " is not available on " ++ chn ++ " network")) ]))
  | Some tokenAddress =>
  match parseInt amt with
  | None => inl (inr (json 400
         [ ("error", FString "Invalid amount");
           ("message", FString "Amount must be a positive integer in token units") ]))
  | Some amountInt =>
    if amountInt <=? 0
    then inl (inr (json 400
         [ ("error", FString "Invalid amount");
           ("message", FString "Amount must be a positive integer in token units") ]))
    else inr (mkChecked recipient amt tok chn rpc tk tokenAddress amountInt)
  end end end end.

(** The success document of the handler. *)
Definition done (c : Checked) (from : string) (tx : Tx) (receipt : Receipt) : Response :=
  json 200
    [ ("success", FBool true);
      ("tx_hash", FString (hash tx));
      ("from", FString from);
      ("to", FString (lk_to c));
      ("amount", FString (lk_amount c));
      ("token", FString (lk_token c));
      ("chain", FString (lk_chain c));
      ("block_number", FInt (blockNumber receipt));
      ("gas_used", FString (BigInt_toString (gasUsed receipt)));
      ("explorer_url",
       FString (Service.show_entry (get EXPLORERS (lk_chain c)) ++ "/tx/" ++ hash tx));
      ("message", FString "Transaction signed and confirmed successfully") ].

(** The chain part of the handler for checked data. *)
Definition proceed (cfg : Config) (c : Checked) : Prog (JsError + Response) :=
  Connect (lk_rpc c) (PRIVATE_KEY cfg) (lk_address c) (fun r =>
  match r with
  | inl e => Ret (inl e)
  | inr from =>
  Transfer (lk_to c) (AmountNumber (Number_of_Z (lk_amountInt c))) (fun r =>
  match r with
  | inl e => Ret (inl e)
  | inr tx =>
  Wait tx 1 60000 (fun r =>
  match r with
  | inl e => Ret (inl e)
  | inr receipt => Ret (inr (done c from tx receipt))
  end) end) end).

(** What the handler answers for the outcome of its [try] block. *)
Definition answer (r : JsError + Response) : Response :=
  match r with
  | inl error => sign_and_send_catch error
  | inr response => response
  end.

Definition connect_event (cfg : Config) (c : Checked) (a : JsError + string) : Event :=
  EvConnect (lk_rpc c) (PRIVATE_KEY cfg) (lk_address c) a.

Definition transfer_event (c : Checked) (a : JsError + Tx) : Event :=
  EvTransfer (lk_to c) (AmountNumber (Number_of_Z (lk_amountInt c))) a.

(** Every way a request to [/sign-and-send] can go. *)
Inductive outcome (cfg : Config) (req : Request)
  : list Event -> Response -> Prop :=
| rejected r :
    checks cfg req = inl r -> outcome cfg req [] (answer r)
| connect_failed c e :
    checks cfg req = inr c ->
    outcome cfg req [connect_event cfg c (inl e)] (sign_and_send_catch e)
| submit_failed c from e :
    checks cfg req = inr c ->
    outcome cfg req [connect_event cfg c (inr from); transfer_event c (inl e)]
            (sign_and_send_catch e)
| wait_failed c from tx e :
    checks cfg req = inr c ->
    outcome cfg req
      [connect_event cfg c (inr from); transfer_event c (inr tx);
       EvWait tx 1 60000 (inl e)]
      (sign_and_send_catch e)
| waited c from tx receipt :
    checks cfg req = inr c ->
    outcome cfg req
      [connect_event cfg c (inr from); transfer_event c (inr tx);
       EvWait tx 1 60000 (inr receipt)]
      (done c from tx receipt).

(** [app.get('/health', ...)] of the older service. *)
Definition health (cfg : Config) : Response :=
  json 200
    [ ("status", FString "healthy");
      ("service", FString "AgentGatePay Transaction Signing Service");
      ("version", FString "1.0.0");
      ("configured", FBool (truthy (PRIVATE_KEY cfg)));
      ("supported_chains", FStrings (keys (RPCS cfg)));
      ("supported_tokens", FStrings (keys TOKENS)) ].

(** The same request with another [Authorization] header. *)
Definition with_authorization (req : Request) (header : option string) : Request :=
  mkRequest header (to req) (amount req) (token req) (chain req).

(** The same configuration with another [AUTH_TOKEN]. *)
Definition with_token (cfg : Config) (tok : option string) : Config :=
  Legacy.mkConfig (PRIVATE_KEY cfg) tok (BASE_RPC cfg) (ETHEREUM_RPC cfg)
    (POLYGON_RPC cfg) (ARBITRUM_RPC cfg).

(** A chain client whose receipts report a reverted transaction. *)
Definition reverting : World :=
  mkWorld
    (fun _ _ _ => FetchResponse true JsonValue)
    (fun _ _ _ _ => inr "0xWALLET")
    (fun _ _ _ => inr (mkTx "0xabc"))
    (fun _ _ _ _ => inr (mkReceipt (Some 0) 100 21000)).

End LegacyFlow.

(** ** The interpreter *)

Module RunFacts.
Import JS Chain.

(** Running a sequence runs its parts in order on the same history. *)
Lemma run_bind {A B : Type} (w : World) (p : Prog A) (f : A -> Prog B) :
  forall h, run w (bind p f) h = run w (f (snd (run w p h))) (fst (run w p h)).
Proof.
  induction p as [a | url key k IH | rpc pk tok k IH | to amt k IH | tx c t k IH];
    intro h; simpl; auto.
Qed.

(** A run only appends to the history. *)
Lemma run_extends {A : Type} (w : World) (p : Prog A) :
  forall h, exists tr, fst (run w p h) = (h ++ tr)%list.
Proof.
  induction p as [a | url key k IH | rpc pk tok k IH | to amt k IH | tx c t k IH];
    intro h; simpl.
  - exists []. now rewrite app_nil_r.
  - destruct (IH (on_fetch w h url key) (h ++ [EvFetch url key (on_fetch w h url key)])%list)
      as [tr E].
    eexists. rewrite E, <- app_assoc. reflexivity.
  - destruct (IH (on_connect w h rpc pk tok)
                 (h ++ [EvConnect rpc pk tok (on_connect w h rpc pk tok)])%list) as [tr E].
    eexists. rewrite E, <- app_assoc. reflexivity.
  - destruct (IH (on_transfer w h to amt)
                 (h ++ [EvTransfer to amt (on_transfer w h to amt)])%list) as [tr E].
    eexists. rewrite E, <- app_assoc. reflexivity.
  - destruct (IH (on_wait w h tx c t)
                 (h ++ [EvWait tx c t (on_wait w h tx c t)])%list) as [tr E].
    eexists. rewrite E, <- app_assoc. reflexivity.
Qed.

Lemma run_ret {A : Type} (w : World) (a : A) (h : list Event) :
  run w (Ret a) h = (h, a).
Proof. reflexivity. Qed.

End RunFacts.

(** ** Owner authorisation *)

Module Authorizer.
Import JS Chain Http Service Props RunFacts.

Lemma falsy_false_inv (x : option string) :
  falsy x = false -> exists s, x = Some s /\ s <> EmptyString.
Proof.
  destruct x as [s|]; simpl; [|discriminate].
  intro H. exists s. split; [reflexivity|].
  intro E. subst s. discriminate.
Qed.

Lemma falsy_Some (s : string) : s <> EmptyString -> falsy (Some s) = false.
Proof.
  intro H. simpl. destruct (String.eqb_spec s EmptyString); [contradiction|reflexivity].
Qed.

(** Whatever the identity service answers, the verdict of
    [verifyOwnerApiKey] is a plain boolean and it calls nothing but the
    identity service. *)
Lemma verifyOwnerApiKey_no_chain_call (cfg : Config) (apiKey : option string)
      (w : World) (h : list Event) :
  exists tr, fst (run w (verifyOwnerApiKey cfg apiKey) h) = (h ++ tr)%list
             /\ filter is_chain_call tr = [].
Proof.
  unfold verifyOwnerApiKey.
  destruct (falsy (OWNER_API_KEY cfg)).
  { exists []. simpl. now rewrite app_nil_r. }
  destruct (strict_neq apiKey (OWNER_API_KEY cfg)).
  { exists []. simpl. now rewrite app_nil_r. }
  simpl.
  set (url := AGENTPAY_API_URL cfg ++ "/v1/users/me").
  exists [EvFetch url (show apiKey) (on_fetch w h url (show apiKey))].
  split; [|reflexivity].
  destruct (on_fetch w h url (show apiKey)) as [e | ok [e | |]];
    try destruct ok; reflexivity.
Qed.

(** C8: with no owner credential configured (the variable unset or
    empty), [verifyOwnerApiKey] answers [true] for every credential
    value without consulting anything, and a request that carries the
    header goes on to the processing of its body. *)
Theorem verifyOwnerApiKey_fail_open (cfg : Config) :
  falsy (OWNER_API_KEY cfg) = true ->
  (forall apiKey, verifyOwnerApiKey cfg apiKey = Ret true)
  /\ (forall req, falsy (x_api_key req) = false ->
                  sign_payment_try cfg req = payment cfg req).
Proof.
  intro Hopen. split.
  - intro apiKey. unfold verifyOwnerApiKey. now rewrite Hopen.
  - intros req Hkey. unfold sign_payment_try, verifyOwnerApiKey.
    now rewrite Hkey, Hopen.
Qed.

Lemma verifyOwnerApiKey_fail_open_witness :
  verifyOwnerApiKey Samples.open_cfg (Some "anyone") = Ret true
  /\ sign_payment_try Samples.open_cfg (Samples.request (Some "anyone") (Some "1") (Some "base"))
     = payment Samples.open_cfg (Samples.request (Some "anyone") (Some "1") (Some "base")).
Proof.
  destruct (verifyOwnerApiKey_fail_open Samples.open_cfg eq_refl) as [H1 H2].
  split; [apply H1 | apply H2; reflexivity].
Defined.

(** C10: a request without the [x-api-key] header is answered 401
    Unauthorized under every configuration, also one without an owner
    credential: the handler tests the header before it calls
    [verifyOwnerApiKey], and calls no collaborator. *)
Theorem missing_header_is_401 (cfg : Config) (req : Request) :
  x_api_key req = None ->
  sign_payment cfg req = Ret MissingCredential
  /\ forall w h, run w (sign_payment cfg req) h = (h, MissingCredential)
                 /\ status_code MissingCredential = 401.
Proof.
  intro Hnone.
  assert (E : sign_payment cfg req = Ret MissingCredential).
  { unfold sign_payment, sign_payment_try. rewrite Hnone. reflexivity. }
  split; [exact E|].
  intros w h. rewrite E. split; reflexivity.
Qed.

Lemma missing_header_is_401_witness :
  sign_payment Samples.open_cfg (Samples.request None (Some "15000000") (Some "base"))
  = Ret MissingCredential.
Proof.
  apply (missing_header_is_401 Samples.open_cfg
           (Samples.request None (Some "15000000") (Some "base")) eq_refl).
Defined.

(** C7: when an owner credential is configured and the request carries
    a different one, the answer is 403 and the handler has called
    nothing: no transfer, no confirmation wait, not even the identity
    service. *)
Theorem wrong_credential_is_403 (cfg : Config) (req : Request) (owner key : string) :
  OWNER_API_KEY cfg = Some owner -> owner <> EmptyString ->
  x_api_key req = Some key -> key <> EmptyString ->
  key <> owner ->
  forall w h,
    run w (sign_payment cfg req) h = (h, Forbidden)
    /\ status_code Forbidden = 403
    /\ filter is_chain_call (fst (run w (sign_payment cfg req) h)) = filter is_chain_call h.
Proof.
  intros Hown Hne Hkey Hkne Hdiff w h.
  assert (E : sign_payment cfg req = Ret Forbidden).
  { unfold sign_payment, sign_payment_try, verifyOwnerApiKey.
    rewrite Hkey, Hown, (falsy_Some _ Hne), (falsy_Some _ Hkne). simpl.
    destruct (String.eqb_spec key owner); [contradiction|]. reflexivity. }
  rewrite E. repeat split; reflexivity.
Qed.

Lemma wrong_credential_is_403_witness :
  run (Samples.confirming (Some 1) (Some 1))
      (sign_payment Samples.owner_cfg
         (Samples.request (Some "guess") (Some "15000000") (Some "base"))) []
  = ([], Forbidden).
Proof.
  apply (wrong_credential_is_403 Samples.owner_cfg
           (Samples.request (Some "guess") (Some "15000000") (Some "base"))
           "owner-key" "guess" eq_refl).
  - discriminate.
  - reflexivity.
  - discriminate.
  - discriminate.
Defined.

End Authorizer.

(** ** Request validation *)

Module Validator.
Import JS Chain Http Service Props RunFacts.

(** The field-presence test is the first thing [payment] does. *)
Lemma payment_missing_fields (cfg : Config) (req : Request) :
  missing_fields req = true -> payment cfg req = Ret (inr MissingFields).
Proof.
  unfold missing_fields, payment.
  destruct (merchant_address req) as [m|], (total_amount req) as [t|],
           (token req) as [k|], (chain req) as [c|]; simpl;
    rewrite ?orb_true_r; try reflexivity.
  intro H. rewrite H. reflexivity.
Qed.

(** The handler once the owner check has let the request through. *)
Lemma sign_payment_authorized (cfg : Config) (req : Request) (w : World) (h : list Event) :
  falsy (x_api_key req) = false ->
  snd (run w (verifyOwnerApiKey cfg (x_api_key req)) h) = true ->
  run w (sign_payment cfg req) h
  = run w (bind (payment cfg req) (fun r => Ret (answer r)))
        (fst (run w (verifyOwnerApiKey cfg (x_api_key req)) h)).
Proof.
  intros Hkey Hauth.
  unfold sign_payment, sign_payment_try. rewrite Hkey.
  rewrite !run_bind. rewrite Hauth. simpl negb. cbv iota.
  destruct (snd (run w (payment cfg req) _)) as [e|resp]; reflexivity.
Qed.

(** The handler once the owner check has turned the request down. *)
Lemma sign_payment_refused (cfg : Config) (req : Request) (w : World) (h : list Event) :
  falsy (x_api_key req) = false ->
  snd (run w (verifyOwnerApiKey cfg (x_api_key req)) h) = false ->
  run w (sign_payment cfg req) h
  = (fst (run w (verifyOwnerApiKey cfg (x_api_key req)) h), Forbidden).
Proof.
  intros Hkey Hauth.
  unfold sign_payment, sign_payment_try. rewrite Hkey.
  rewrite !run_bind. rewrite Hauth. reflexivity.
Qed.

(** C9: a request that passes the owner check but lacks one of the four
    members, and names a chain that is not in the table, is answered with
    the missing-fields error (400), whose message lists the four required
    members; the chain is never looked at. *)
Theorem missing_fields_reported_first (cfg : Config) (req : Request)
        (w : World) (h : list Event) :
  missing_fields req = true ->
  chain_supported cfg (chain req) = false ->
  falsy (x_api_key req) = false ->
  snd (run w (verifyOwnerApiKey cfg (x_api_key req)) h) = true ->
  snd (run w (sign_payment cfg req) h) = MissingFields
  /\ status_code MissingFields = 400
  /\ field MissingFields "message"
     = Some (FString "Required fields: merchant_address, total_amount, token, chain").
Proof.
  intros Hmiss _ Hkey Hauth.
  rewrite (sign_payment_authorized cfg req w h Hkey Hauth).
  rewrite (payment_missing_fields cfg req Hmiss).
  repeat split.
Qed.

Lemma missing_fields_reported_first_witness :
  snd (run (Samples.confirming (Some 1) (Some 1))
           (sign_payment Samples.owner_cfg
              (Samples.request (Some "owner-key") None (Some "solana"))) [])
  = MissingFields.
Proof.
  apply (missing_fields_reported_first Samples.owner_cfg
           (Samples.request (Some "owner-key") None (Some "solana"))
           (Samples.confirming (Some 1) (Some 1)) []);
    reflexivity.
Defined.

End Validator.

(** ** The two-leg orchestration *)

Module Orchestrator.
Import JS Chain Http Service Props RunFacts.

Lemma failed_on_chain_false (rc : Receipt) :
  failed_on_chain rc = false -> status rc = Some 1.
Proof.
  unfold failed_on_chain.
  destruct (status rc) as [[|[p|p|]|p]|]; try discriminate. reflexivity.
Qed.

Lemma failed_on_chain_true (rc : Receipt) :
  failed_on_chain rc = true -> status rc <> Some 1.
Proof.
  unfold failed_on_chain. intros H E. rewrite E in H. discriminate.
Qed.

(** Steps 8-10 leave one of the seven traces of [legs]. *)
Lemma transfers_legs (cfg : Config) (caddr maddr total tok chn : string) (tk : Token)
      (from : string) (totalBN cBN mBN : Z) (w : World) (h : list Event) :
  exists tr r,
    run w (transfers cfg caddr maddr total tok chn tk from totalBN cBN mBN) h
    = ((h ++ tr)%list, r)
    /\ legs caddr maddr (AmountString (BigInt_toString cBN))
            (AmountString (BigInt_toString mBN)) tr r.
Proof.
  unfold transfers. simpl.
  destruct (on_transfer w h caddr _) as [e|tx1] eqn:T1.
  { do 2 eexists. split; [reflexivity | constructor]. }
  simpl.
  destruct (on_wait w _ tx1 1 60000) as [e|rc1] eqn:W1.
  { do 2 eexists. split; [rewrite <- app_assoc; reflexivity | constructor]. }
  destruct (failed_on_chain rc1) eqn:F1.
  { do 2 eexists. split; [simpl; rewrite <- app_assoc; reflexivity |].
    constructor. now apply failed_on_chain_true. }
  apply failed_on_chain_false in F1. simpl.
  destruct (on_transfer w _ maddr _) as [e|tx2] eqn:T2.
  { do 2 eexists. split; [simpl; rewrite <- !app_assoc; reflexivity |].
    now constructor. }
  simpl.
  destruct (on_wait w _ tx2 1 60000) as [e|rc2] eqn:W2.
  { do 2 eexists. split; [simpl; rewrite <- !app_assoc; reflexivity |].
    now constructor. }
  destruct (failed_on_chain rc2) eqn:F2.
  { do 2 eexists. split; [simpl; rewrite <- !app_assoc; reflexivity |].
    constructor; [assumption | now apply failed_on_chain_true]. }
  apply failed_on_chain_false in F2.
  do 2 eexists. split; [simpl; rewrite <- !app_assoc; reflexivity |].
  now constructor.
Qed.

(** Steps 2-10: the body is answered without a chain call, or after a
    failed connection, or after the two legs. *)
Lemma payment_shape (cfg : Config) (req : Request) (w : World) (h : list Event) :
  exists tr r,
    run w (payment cfg req) h = ((h ++ tr)%list, r)
    /\ payment_trace cfg req tr (answer r).
Proof.
  assert (Stop : forall r : JsError + Response,
             exists tr r', run w (Ret r) h = ((h ++ tr)%list, r')
                           /\ payment_trace cfg req tr (answer r')).
  { intro r. exists [], r. rewrite app_nil_r. split; [reflexivity | constructor]. }
  unfold payment.
  destruct (merchant_address req) as [maddr|] eqn:Hm;
    [|destruct (total_amount req), (token req), (chain req); apply Stop].
  destruct (total_amount req) as [total|] eqn:Ht;
    [|destruct (token req), (chain req); apply Stop].
  destruct (token req) as [tok|]; [|destruct (chain req); apply Stop].
  destruct (chain req) as [chn|]; [|apply Stop].
  destruct (_ || _)%bool; [apply Stop|].
  destruct (truthy_entry (get (RPCS cfg) chn)) as [rpc|]; [|apply Stop].
  destruct (get TOKENS tok) as [tk|n|]; [|apply Stop|apply Stop].
  destruct (truthy_entry (get (contracts tk) chn)) as [tokenAddress|]; [|apply Stop].
  destruct (COMMISSION_ADDRESS cfg) as [caddr|] eqn:Hc; [|apply Stop].
  destruct (String.eqb caddr EmptyString); [apply Stop|].
  destruct (BigInt_of_string total) as [e|totalBN] eqn:Hb; [apply Stop|].
  destruct (split (COMMISSION_RATE cfg) totalBN) as [e|[cBN mBN]] eqn:Hs; [apply Stop|].
  simpl.
  destruct (on_connect w h rpc (GATEWAY_PRIVATE_KEY cfg) tokenAddress) as [e|from] eqn:C.
  { do 2 eexists. split; [reflexivity | apply trace_connect_failed]. }
  destruct (transfers_legs cfg caddr maddr total tok chn tk from totalBN cBN mBN w
              (h ++ [EvConnect rpc (GATEWAY_PRIVATE_KEY cfg) tokenAddress (inr from)])%list)
    as (tr & r & E & L).
  exists (EvConnect rpc (GATEWAY_PRIVATE_KEY cfg) tokenAddress (inr from) :: tr), r.
  split.
  - rewrite E, <- app_assoc. reflexivity.
  - eapply trace_legs; eassumption.
Qed.

(** The whole handler on a fresh history: at most one call to the
    identity service, then the chain-client part. *)
Lemma sign_payment_shape (cfg : Config) (req : Request) (w : World) :
  exists auth tr,
    run w (sign_payment cfg req) []
    = ((auth ++ tr)%list, snd (run w (sign_payment cfg req) []))
    /\ filter is_chain_call auth = []
    /\ payment_trace cfg req tr (snd (run w (sign_payment cfg req) [])).
Proof.
  destruct (falsy (x_api_key req)) eqn:Hkey.
  { exists [], []. unfold sign_payment, sign_payment_try. rewrite Hkey.
    repeat split. constructor. }
  destruct (Authorizer.verifyOwnerApiKey_no_chain_call cfg (x_api_key req) w []) as (auth & Ea & Na).
  simpl in Ea.
  destruct (snd (run w (verifyOwnerApiKey cfg (x_api_key req)) [])) eqn:Hauth.
  - rewrite (Validator.sign_payment_authorized cfg req w [] Hkey Hauth).
    rewrite run_bind. rewrite Ea.
    destruct (payment_shape cfg req w auth) as (tr & r & E & P).
    rewrite E. simpl. exists auth, tr. repeat split; assumption.
  - rewrite (Validator.sign_payment_refused cfg req w [] Hkey Hauth).
    rewrite Ea. exists auth, []. rewrite app_nil_r. repeat split; [assumption | constructor].
Qed.

Lemma submit_count_app (a b : list Event) :
  submit_count (a ++ b) = (submit_count a + submit_count b)%nat.
Proof. unfold submit_count. now rewrite filter_app, length_app. Qed.

Lemma no_chain_call_no_submit (auth : list Event) :
  filter is_chain_call auth = [] -> submit_count auth = 0%nat.
Proof.
  induction auth as [|ev auth IH]; [reflexivity|].
  simpl. destruct ev; simpl; try discriminate. exact IH.
Qed.

(** A submission found in a trace that starts with calls to the
    identity service lies in the rest of the trace. *)
Lemma submission_after_prefix (auth l pre post : list Event) (to : string)
      (amt : Amount) (ans : JsError + Tx) :
  filter is_chain_call auth = [] ->
  (auth ++ l = pre ++ EvTransfer to amt ans :: post)%list ->
  exists pre', pre = (auth ++ pre')%list
               /\ l = (pre' ++ EvTransfer to amt ans :: post)%list.
Proof.
  revert pre. induction auth as [|ev auth IH]; intros pre Hno E.
  - exists pre. split; [reflexivity | exact E].
  - simpl in Hno. destruct pre as [|x pre].
    + simpl in E. injection E as E1 E2. subst ev. discriminate Hno.
    + simpl in E. injection E as E1 E2. subst x.
      assert (Hno' : filter is_chain_call auth = []).
      { destruct (is_chain_call ev); [discriminate | exact Hno]. }
      destruct (IH pre Hno' E2) as (pre' & Ep & El).
      exists pre'. split; [now rewrite Ep | exact El].
Qed.

(** C1: in the trace of any request, a submission that is not the first
    one is the merchant leg, and the two calls right before it are the
    submission of the commission leg and its confirmation with status 1;
    the first submission is the commission leg; and when the commission
    leg's receipt carries another status, the trace has exactly one
    submission. *)
Theorem merchant_leg_only_after_confirmed_commission
        (cfg : Config) (req : Request) (w : World) :
  let tr := fst (run w (sign_payment cfg req) []) in
  (forall pre to amt ans post,
      tr = (pre ++ EvTransfer to amt ans :: post)%list ->
      submit_count pre <> 0%nat ->
      merchant_address req = Some to /\ commission_confirmed cfg pre)
  /\ (forall pre to amt ans post,
      tr = (pre ++ EvTransfer to amt ans :: post)%list ->
      submit_count pre = 0%nat ->
      COMMISSION_ADDRESS cfg = Some to)
  /\ (forall pre to amt tx1 c t rc1 post,
      tr = (pre ++ EvTransfer to amt (inr tx1) :: EvWait tx1 c t (inr rc1) :: post)%list ->
      submit_count pre = 0%nat ->
      status rc1 <> Some 1 ->
      submit_count tr = 1%nat).
Proof.
  intro tr.
  destruct (sign_payment_shape cfg req w) as (auth & ptr & E & Hno & P).
  assert (Etr : tr = (auth ++ ptr)%list) by (subst tr; now rewrite E).
  clearbody tr. subst tr.
  pose proof (no_chain_call_no_submit auth Hno) as Hz.
  split; [|split].
  - intros pre to amt ans post Esplit Hpre.
    destruct (submission_after_prefix _ _ _ _ _ _ _ Hno Esplit) as (pre' & -> & El).
    rewrite submit_count_app, Hz in Hpre. simpl in Hpre.
    inversion P as [resp | rpc pk tok e | rpc pk tok from caddr maddr total totalBN cBN mBN ltr r Hc Hm Ht Hb Hs L];
      subst; crack; try (exfalso; apply Hpre; reflexivity).
    inversion L; subst; crack; try (exfalso; apply Hpre; reflexivity);
      (split; [assumption |
               exists (auth ++ [EvConnect rpc pk tok (inr from)])%list;
               do 4 eexists; rewrite <- app_assoc; simpl;
               repeat split; try eassumption;
               rewrite submit_count_app, Hz; reflexivity]).
  - intros pre to amt ans post Esplit Hpre.
    destruct (submission_after_prefix _ _ _ _ _ _ _ Hno Esplit) as (pre' & -> & El).
    rewrite submit_count_app, Hz in Hpre. simpl in Hpre.
    inversion P as [resp | rpc pk tok e | rpc pk tok from caddr maddr total totalBN cBN mBN ltr r Hc Hm Ht Hb Hs L];
      subst; crack.
    inversion L; subst; crack; try assumption; discriminate Hpre.
  - intros pre to amt tx1 c t rc1 post Esplit Hpre Hrc.
    destruct (submission_after_prefix _ _ _ _ _ _ _ Hno Esplit) as (pre' & -> & El).
    rewrite submit_count_app, Hz in Hpre. simpl in Hpre.
    rewrite submit_count_app, Hz. simpl.
    inversion P as [resp | rpc pk tok e | rpc pk tok from caddr maddr total totalBN cBN mBN ltr r Hc Hm Ht Hb Hs L];
      subst; crack.
    inversion L; subst; crack; try reflexivity; try contradiction;
      discriminate Hpre.
Qed.

Lemma merchant_leg_only_after_confirmed_commission_witness :
  submit_count
    (fst (run (Samples.confirming (Some 0) (Some 1))
              (sign_payment Samples.owner_cfg Samples.usdc_on_base) []))
  = 1%nat.
Proof.
  destruct (merchant_leg_only_after_confirmed_commission
              Samples.owner_cfg Samples.usdc_on_base
              (Samples.confirming (Some 0) (Some 1))) as (_ & _ & H).
  apply (H Samples.opening "0xC0FFEE" (AmountString "75000") (mkTx "0xc1") 1 60000
           (mkReceipt (Some 0) 100 21000) []).
  - vm_compute. reflexivity.
  - reflexivity.
  - discriminate.
Defined.

Lemma sign_payment_catch_members (e : JsError) :
  map fst (body (sign_payment_catch e)) = ["error"; "message"]
  /\ field (sign_payment_catch e) "tx_hash_commission" = None
  /\ (status_code (sign_payment_catch e) = 400
      \/ status_code (sign_payment_catch e) = 500).
Proof.
  unfold sign_payment_catch. destruct (code_is e "INSUFFICIENT_FUNDS"); simpl; auto.
Qed.

(** C4, as the code has it: when the commission leg is confirmed and
    the merchant leg then fails, the answer is the one the [catch] block
    builds from the merchant leg's exception alone; its only members are
    [error] and [message] (status 400 or 500), and it has no member for
    the commission leg's transaction hash. *)
Theorem merchant_failure_answer (cfg : Config) (req : Request) (w : World)
        (pre post : list Event) (maddr : string) (e : JsError) :
  fst (run w (sign_payment cfg req) []) = (pre ++ post)%list ->
  commission_confirmed cfg pre ->
  merchant_failure maddr post e ->
  snd (run w (sign_payment cfg req) []) = sign_payment_catch e
  /\ map fst (body (sign_payment_catch e)) = ["error"; "message"]
  /\ field (sign_payment_catch e) "tx_hash_commission" = None.
Proof.
  intros Etr (h0 & caddr & camt & tx1 & rc1 & -> & Hh0 & Hc & Hrc) Hfail.
  destruct (sign_payment_shape cfg req w) as (auth & ptr & E & Hno & P).
  rewrite E in Etr. simpl in Etr. rewrite <- app_assoc in Etr. simpl in Etr.
  destruct (submission_after_prefix _ _ _ _ _ _ _ Hno Etr) as (pre' & -> & El).
  pose proof (no_chain_call_no_submit auth Hno) as Hz.
  rewrite submit_count_app, Hz in Hh0. simpl in Hh0.
  destruct (sign_payment_catch_members e) as (M1 & M2 & _).
  split; [|split; assumption].
  inversion P as [resp | rpc pk tok e' | rpc pk tok from caddr' maddr' total totalBN cBN mBN ltr r Hc' Hm Ht Hb Hs L];
    subst; crack.
  inversion Hfail; subst;
    inversion L; subst; crack; try discriminate Hh0; try contradiction;
    try reflexivity; congruence.
Qed.

Lemma merchant_failure_answer_witness :
  snd (run (Samples.confirming (Some 1) (Some 0))
           (sign_payment Samples.owner_cfg Samples.usdc_on_base) [])
  = sign_payment_catch (Error "Merchant transaction failed on-chain").
Proof.
  refine (proj1 (merchant_failure_answer Samples.owner_cfg Samples.usdc_on_base
           (Samples.confirming (Some 1) (Some 0))
           (Samples.opening ++ Samples.commission_leg (Some 1))
           (Samples.merchant_leg (Some 0))
           "0xMERCHANT" (Error "Merchant transaction failed on-chain") _ _ _)).
  - vm_compute. reflexivity.
  - exists Samples.opening, "0xC0FFEE", (AmountString "75000"), (mkTx "0xc1"),
           (mkReceipt (Some 1) 100 21000).
    repeat split.
  - apply merchant_reverted. discriminate.
Defined.

(** C4 as stated fails: the owner's request for 15 USDC on Base, the
    commission leg [0xc1] confirmed with status 1, the merchant leg
    [0xm2] confirmed with status 0.  The answer is the 500 document and
    the hash [0xc1] occurs nowhere in it. *)
Lemma merchant_failure_discloses_commission_counterexample :
  let r := run (Samples.confirming (Some 1) (Some 0))
               (sign_payment Samples.owner_cfg Samples.usdc_on_base) [] in
  fst r = (Samples.opening ++ Samples.commission_leg (Some 1)
           ++ Samples.merchant_leg (Some 0))%list
  /\ commission_confirmed Samples.owner_cfg
       (Samples.opening ++ Samples.commission_leg (Some 1))
  /\ merchant_failure "0xMERCHANT" (Samples.merchant_leg (Some 0))
       (Error "Merchant transaction failed on-chain")
  /\ snd r = json 500 [ ("error", FString "Payment failed");
                        ("message", FString "Merchant transaction failed on-chain") ]
  /\ response_mentions (snd r) "0xc1" = false.
Proof.
  intro r.
  split; [vm_compute; reflexivity|].
  split.
  { exists Samples.opening, "0xC0FFEE", (AmountString "75000"), (mkTx "0xc1"),
           (mkReceipt (Some 1) 100 21000).
    repeat split. }
  split; [apply merchant_reverted; discriminate|].
  split; vm_compute; reflexivity.
Qed.

(** C6 at the failing input: the wait for the commission leg runs into
    the timeout (ethers rejects with code [TIMEOUT]).  The answer is 500
    [Payment failed], the label and status also given to a commission
    leg that failed on-chain, while the older handler answers the same
    exception with 408 [Transaction timeout]. *)
Theorem confirmation_timeout_answered_as_payment_failed :
  snd (run Samples.timing_out
           (sign_payment Samples.owner_cfg Samples.usdc_on_base) [])
  = json 500 [ ("error", FString "Payment failed");
               ("message", FString "wait for transaction timeout") ]
  /\ snd (run (Samples.confirming (Some 0) (Some 1))
              (sign_payment Samples.owner_cfg Samples.usdc_on_base) [])
     = json 500 [ ("error", FString "Payment failed");
                  ("message", FString "Commission transaction failed on-chain") ]
  /\ snd (run Samples.timing_out
              (Legacy.sign_and_send Samples.legacy_cfg
                 (Samples.legacy_request "15000000")) [])
     = json 408
         [ ("error", FString "Transaction timeout");
           ("message", FString "Transaction was sent but confirmation timed out. Check explorer.");
           ("details", FString "wait for transaction timeout") ].
Proof. repeat split; vm_compute; reflexivity. Qed.

(** Every exception with code [TIMEOUT] gets the generic 500 answer of
    [/sign-payment] and the 408 answer of [/sign-and-send]. *)
Lemma timeout_answers (e : JsError) :
  err_code e = Some "TIMEOUT" ->
  sign_payment_catch e
  = json 500 [ ("error", FString "Payment failed");
               ("message", FString (err_message e)) ]
  /\ status_code (Legacy.sign_and_send_catch e) = 408.
Proof.
  intro H. unfold sign_payment_catch, Legacy.sign_and_send_catch, code_is.
  rewrite H. split; reflexivity.
Qed.

End Orchestrator.
(** ** The amount check *)

Module AmountCheck.
Import JS Chain Http Service Props.

(** C5 at failing inputs.  [/sign-payment] has no amount check: a total
    of ["0"] is split into two zero transfers that are both submitted
    and the answer is the success document; a negative total reaches the
    chain client as well; a total that is no integer at all is answered
    500 [Payment failed] from the [catch] block.  The older handler
    answers the same amounts 400 [Invalid amount] before any call. *)
Theorem sign_payment_has_no_amount_check :
  (let '(tr, resp) :=
     run (Samples.confirming (Some 1) (Some 1))
         (sign_payment Samples.owner_cfg
            (Samples.request (Some "owner-key") (Some "0") (Some "base"))) [] in
   status_code resp = 200
   /\ filter is_transfer tr
      = [ EvTransfer "0xC0FFEE" (AmountString "0") (inr (mkTx "0xc1"));
          EvTransfer "0xMERCHANT" (AmountString "0") (inr (mkTx "0xm2")) ])
  /\ (let '(tr, resp) :=
        run (Samples.confirming (Some 1) (Some 1))
            (sign_payment Samples.owner_cfg
               (Samples.request (Some "owner-key") (Some "-1000") (Some "base"))) [] in
      filter is_transfer tr
      = [ EvTransfer "0xC0FFEE" (AmountString "-5") (inr (mkTx "0xc1"));
          EvTransfer "0xMERCHANT" (AmountString "-995") (inr (mkTx "0xm2")) ])
  /\ snd (run (Samples.confirming (Some 1) (Some 1))
              (sign_payment Samples.owner_cfg
                 (Samples.request (Some "owner-key") (Some "abc") (Some "base"))) [])
     = json 500 [ ("error", FString "Payment failed");
                  ("message", FString "Cannot convert abc to a BigInt") ]
  /\ (forall amount, In amount ["0"; "-1000"; "abc"] ->
        run (Samples.confirming (Some 1) (Some 1))
            (Legacy.sign_and_send Samples.legacy_cfg (Samples.legacy_request amount)) []
        = ([], json 400
                 [ ("error", FString "Invalid amount");
                   ("message", FString "Amount must be a positive integer in token units") ])).
Proof.
  split; [vm_compute; split; reflexivity|].
  split; [vm_compute; reflexivity|].
  split; [vm_compute; reflexivity|].
  intros amount [<- | [<- | [<- | []]]]; vm_compute; reflexivity.
Qed.

End AmountCheck.

(** ** Rounding of the Number product *)

Module NumberFacts.
Import JS Props.

Lemma pow2_pos (k : Z) : 0 <= k -> 0 < 2 ^ k.
Proof. intro H. apply Z.pow_pos_nonneg; lia. Qed.

(** [digits2_pos] is the bit length. *)
Lemma digits2_pos_upper (p : positive) : Zpos p < 2 ^ Zpos (digits2_pos p).
Proof.
  induction p as [p IH | p IH |]; simpl digits2_pos;
    rewrite ?Pos2Z.inj_succ, ?Z.pow_succ_r by lia; lia.
Qed.

Lemma digits2_pos_lower (p : positive) : 2 ^ (Zpos (digits2_pos p) - 1) <= Zpos p.
Proof.
  induction p as [p IH | p IH |]; simpl digits2_pos;
    rewrite ?Pos2Z.inj_succ; try (simpl; lia).
  - replace (Z.succ (Zpos (digits2_pos p)) - 1) with (Z.succ (Zpos (digits2_pos p) - 1)) by lia.
    rewrite Z.pow_succ_r by lia. lia.
  - replace (Z.succ (Zpos (digits2_pos p)) - 1) with (Z.succ (Zpos (digits2_pos p) - 1)) by lia.
    rewrite Z.pow_succ_r by lia. lia.
Qed.

(** A non-negative integer below [2^k] has at most [k] digits. *)
Lemma Zdigits2_le (z k : Z) : 0 <= z < 2 ^ k -> 0 <= k -> Zdigits2 z <= k.
Proof.
  intros [H0 H1] Hk. destruct z as [|p|p]; simpl; [lia | | lia].
  pose proof (digits2_pos_lower p) as L.
  destruct (Z_le_gt_dec (Zpos (digits2_pos p)) k) as [?|G]; [assumption|exfalso].
  assert (2 ^ k <= 2 ^ (Zpos (digits2_pos p) - 1)) by (apply Z.pow_le_mono_r; lia).
  lia.
Qed.

(** One shift halves the mantissa. *)
Lemma shr_1_m (r : shr_record) : 0 <= shr_m r -> shr_m (shr_1 r) = shr_m r / 2.
Proof.
  destruct r as [m rb sb]. simpl. intro H.
  rewrite <- Z.div2_div.
  destruct m as [|[p|p|]|p]; try reflexivity; lia.
Qed.

Lemma shr_m_iter (p : positive) :
  forall r, 0 <= shr_m r -> shr_m (SpecFloat.iter_pos shr_1 p r) = shr_m r / 2 ^ Zpos p.
Proof.
  induction p as [p IH | p IH |]; intros r H; simpl SpecFloat.iter_pos.
  - assert (H1 : 0 <= shr_m (shr_1 r)) by (rewrite shr_1_m by assumption; apply Z.div_pos; lia).
    assert (H2 : 0 <= shr_m (SpecFloat.iter_pos shr_1 p (shr_1 r))).
    { rewrite IH by assumption. apply Z.div_pos; [assumption | apply pow2_pos; lia]. }
    rewrite IH, IH, shr_1_m by assumption.
    pose proof (pow2_pos (Zpos p) ltac:(lia)).
    assert (E : 2 ^ Zpos p~1 = 2 * 2 ^ Zpos p * 2 ^ Zpos p).
    { replace (Zpos p~1) with (1 + Zpos p + Zpos p) by lia.
      rewrite !Z.pow_add_r by lia. reflexivity. }
    rewrite E, !Z.div_div by lia. now rewrite Z.mul_assoc.
  - assert (H2 : 0 <= shr_m (SpecFloat.iter_pos shr_1 p r)).
    { rewrite IH by assumption. apply Z.div_pos; [assumption | apply pow2_pos; lia]. }
    rewrite IH, IH by assumption.
    pose proof (pow2_pos (Zpos p) ltac:(lia)).
    assert (E : 2 ^ Zpos p~0 = 2 ^ Zpos p * 2 ^ Zpos p).
    { replace (Zpos p~0) with (Zpos p + Zpos p) by lia.
      rewrite !Z.pow_add_r by lia. reflexivity. }
    rewrite E, !Z.div_div by lia. reflexivity.
  - now apply shr_1_m.
Qed.

(** [shr] by [n] divides by [2^max(0,n)] and raises the exponent. *)
Lemma shr_spec (r : shr_record) (e n : Z) :
  0 <= shr_m r ->
  shr_m (fst (shr r e n)) = shr_m r / 2 ^ Z.max 0 n
  /\ snd (shr r e n) = e + Z.max 0 n.
Proof.
  intro H. destruct n as [|p|p]; simpl.
  - rewrite Z.div_1_r. lia.
  - rewrite shr_m_iter by assumption. rewrite Z.max_r by lia. split; reflexivity.
  - rewrite Z.div_1_r. lia.
Qed.

Lemma shr_record_of_loc_m (m : Z) (l : location) : shr_m (shr_record_of_loc m l) = m.
Proof. destruct l as [|[]]; reflexivity. Qed.

Lemma round_nearest_even_bounds (m : Z) (l : location) :
  m <= round_nearest_even m l <= m + 1.
Proof.
  destruct l as [|[]]; simpl; try lia. destruct (Z.even m); lia.
Qed.

Lemma pow2_split (n a : Z) : 0 <= a <= n -> 2 ^ n = 2 ^ (n - a) * 2 ^ a.
Proof.
  intro H. rewrite <- Z.pow_add_r by lia. f_equal. lia.
Qed.

Lemma below_pow2 (z K n : Z) :
  0 <= K < 2 ^ 14 -> 0 <= n -> z <= K * 2 ^ n -> z < 2 ^ (14 + n).
Proof.
  intros HK Hn Hz. rewrite Z.pow_add_r by lia.
  pose proof (pow2_pos n Hn). nia.
Qed.

Section ProductRounding.

(** The exact product is [P * 2^X], below an integer [K < 2^14]. *)
Variables (P : positive) (X K : Z).
Hypothesis HK : 0 <= K < 2 ^ 14.
Hypothesis HX : X <= -39.
Hypothesis HP : Zpos P < K * 2 ^ (- X).

(** Rounding the product to nearest-even gives a Number whose floor is
    at most [K]: neither of the two shifts nor the rounding step can
    carry the mantissa past [K * 2^-e]. *)
Lemma round_floor_bound :
  exists b,
    BigInt_of_floor (binary_round_aux prec emax false (Zpos P) X loc_Exact) = inr b
    /\ 0 <= b <= K.
Proof.
  unfold binary_round_aux, shr_fexp.
  (* first shift *)
  set (n1 := fexp prec emax (Zdigits2 (Zpos P) + X) - X).
  destruct (shr_spec (shr_record_of_loc (Zpos P) loc_Exact) X n1) as [M1 E1];
    [simpl; lia|].
  destruct (shr (shr_record_of_loc (Zpos P) loc_Exact) X n1) as [mrs1 e1].
  simpl fst in M1. simpl snd in E1. rewrite shr_record_of_loc_m in M1.
  assert (D1 : Zdigits2 (Zpos P) + X <= 14).
  { pose proof (Zdigits2_le (Zpos P) (14 + - X)) as D.
    pose proof (below_pow2 (Zpos P) K (- X) HK ltac:(lia) ltac:(lia)). lia. }
  set (a := Z.max 0 n1) in *.
  assert (Ha : 0 <= a <= - X - 39).
  { subst a n1. unfold fexp, emin, prec, emax. lia. }
  pose proof (pow2_pos a ltac:(lia)) as Pa.
  pose proof (pow2_pos (- X - a) ltac:(lia)) as Pxa.
  assert (B1 : shr_m mrs1 + 1 <= K * 2 ^ (- X - a)).
  { rewrite M1. rewrite (pow2_split (- X) a) in HP by lia.
    assert (Zpos P / 2 ^ a < K * 2 ^ (- X - a)); [|lia].
    apply Z.div_lt_upper_bound; [assumption|]. lia. }
  assert (N1 : 0 <= shr_m mrs1) by (rewrite M1; apply Z.div_pos; lia).
  (* rounding *)
  pose proof (round_nearest_even_bounds (shr_m mrs1) (loc_of_shr_record mrs1)) as HR.
  set (R := round_nearest_even (shr_m mrs1) (loc_of_shr_record mrs1)) in *.
  (* second shift *)
  set (n2 := fexp prec emax (Zdigits2 R + e1) - e1).
  destruct (shr_spec (shr_record_of_loc R loc_Exact) e1 n2) as [M2 E2];
    [simpl; lia|].
  destruct (shr (shr_record_of_loc R loc_Exact) e1 n2) as [mrs2 e2].
  simpl fst in M2. simpl snd in E2. rewrite shr_record_of_loc_m in M2.
  assert (Ee1 : - e1 = - X - a) by lia.
  assert (D2 : Zdigits2 R + e1 <= 14).
  { pose proof (Zdigits2_le R (14 + - e1)) as D.
    pose proof (below_pow2 R K (- e1) HK ltac:(lia)) as B.
    rewrite Ee1 in B. specialize (B ltac:(lia)). rewrite <- Ee1 in B. lia. }
  set (b := Z.max 0 n2) in *.
  assert (Hb : 0 <= b <= - e1 - 39).
  { subst b n2. unfold fexp, emin, prec, emax. lia. }
  pose proof (pow2_pos b ltac:(lia)) as Pb.
  pose proof (pow2_pos (- e2) ltac:(lia)) as Pe2.
  assert (B2 : 0 <= shr_m mrs2 <= K * 2 ^ (- e2)).
  { rewrite M2. split; [apply Z.div_pos; lia|].
    apply Z.div_le_upper_bound; [assumption|].
    replace (- e2) with (- X - a - b) by lia.
    rewrite (pow2_split (- X - a) b) in B1 by lia. lia. }
  destruct (shr_m mrs2) as [|m2|m2] eqn:Em2.
  - exists 0. split; [reflexivity | lia].
  - replace (e2 <=? emax - prec) with true
      by (symmetry; apply Z.leb_le; unfold emax, prec; lia).
    exists (floor_finite false m2 e2). split; [reflexivity|].
    unfold floor_finite. simpl cond_Zopp.
    rewrite Z.shiftl_div_pow2 by lia.
    split; [apply Z.div_pos; lia|].
    apply Z.div_le_upper_bound; [assumption | lia].
  - lia.
Qed.

End ProductRounding.

(** A Number above zero and below one is finite and positive. *)
Lemma between_zero_and_one_finite (rate : Number) :
  Number_lt Number_zero rate = true -> Number_lt rate Number_one = true ->
  exists m e, rate = S754_finite false m e.
Proof.
  intros H0 H1.
  destruct rate as [s | s | | s m e]; try discriminate H0.
  - destruct s; discriminate.
  - destruct s; [discriminate|]. now exists m, e.
Qed.

(** Below one: a smaller exponent than [1 = 2^52 * 2^-52], or the same
    exponent and a smaller mantissa. *)
Lemma below_one_inv (m : positive) (e : Z) :
  Number_lt (S754_finite false m e) Number_one = true ->
  e < -52 \/ (e = -52 /\ (m < 4503599627370496)%positive).
Proof.
  unfold Number_lt, SFltb, SFcompare, Number_one.
  destruct (Z.compare_spec e (-52)) as [E | L | G]; try discriminate.
  - rewrite Pos.compare_cont_spec. unfold Pos.switch_Eq.
    destruct (Pos.compare_spec m 4503599627370496) as [C | C | C]; try discriminate.
    intros _. right. split; assumption.
  - intros _. left. assumption.
Qed.

(** A canonical mantissa has at most 53 bits. *)
Lemma canonical_mantissa_below (m : positive) (e : Z) :
  is_Number (S754_finite false m e) -> e < -52 -> Zpos m < 2 ^ (- e).
Proof.
  intros Hv L.
  unfold is_Number, valid_binary, bounded, canonical_mantissa in Hv.
  apply andb_prop in Hv. destruct Hv as [Hc _]. apply Z.eqb_eq in Hc.
  unfold fexp, emin, prec, emax in Hc.
  pose proof (digits2_pos_upper m) as U.
  assert (Zpos (digits2_pos m) <= 53) by lia.
  assert (2 ^ Zpos (digits2_pos m) <= 2 ^ 53) by (apply Z.pow_le_mono_r; lia).
  assert (2 ^ 53 <= 2 ^ (- e)) by (apply Z.pow_le_mono_r; lia).
  lia.
Qed.

(** A Number in (0,1) is a positive finite one whose mantissa stays
    below [2^-e]. *)
Lemma rate_in_range_inv (rate : Number) :
  rate_in_range rate ->
  exists m e, rate = S754_finite false m e /\ e <= -1 /\ Zpos m < 2 ^ (- e).
Proof.
  intros (Hv & H0 & H1).
  destruct (between_zero_and_one_finite rate H0 H1) as (m & e & ->).
  exists m, e. split; [reflexivity|].
  destruct (below_one_inv m e H1) as [L | [-> C]].
  - split; [clear - L; lia | now apply canonical_mantissa_below].
  - split; [clear; lia|].
    change (2 ^ (- -52)) with (Zpos 4503599627370496).
    now apply Pos2Z.pos_lt_pos.
Qed.

(** The rate a configuration in the recognised range yields: between 0
    and 10000 basis points. *)
Lemma rate_basis_points_range (rate : Number) :
  rate_in_range rate ->
  exists bps, Service.rate_basis_points rate = inr bps /\ 0 <= bps <= 10000.
Proof.
  intro H. destruct (rate_in_range_inv rate H) as (m & e & -> & He & Hm).
  unfold Service.rate_basis_points, Number_mul.
  change (Number_of_Z 10000) with (S754_finite false 5497558138880000 (-39)).
  unfold SFmul. simpl xorb.
  apply round_floor_bound; [lia | lia |].
  rewrite Pos2Z.inj_mul.
  replace (- (e + -39)) with (- e + 39) by lia.
  rewrite Z.pow_add_r by lia.
  change (2 ^ 39) with 549755813888.
  pose proof (pow2_pos (- e) ltac:(lia)). nia.
Qed.

End NumberFacts.

(** ** The commission split *)

Module Splitter.
Import JS Chain Http Service Props NumberFacts.

(** The split for a rate of [bps] basis points. *)
Lemma split_of_basis_points (rate : Number) (bps total : Z) :
  rate_basis_points rate = inr bps ->
  split rate total
  = inr (commissionAmountBN total bps, merchantAmountBN total bps).
Proof. intro H. unfold split. now rewrite H. Qed.


(** On a non-negative total BigInt division is the floor. *)
Lemma commission_is_floor (total bps : Z) :
  0 <= total -> 0 <= bps ->
  commissionAmountBN total bps = total * bps / 10000.
Proof.
  intros Ht Hb. unfold commissionAmountBN.
  apply Z.quot_div_nonneg; nia.
Qed.

Lemma commission_bounds (total bps : Z) :
  0 <= total -> 0 <= bps <= 10000 ->
  0 <= commissionAmountBN total bps <= total.
Proof.
  intros Ht Hb. rewrite commission_is_floor by lia. split.
  - apply Z.div_pos; nia.
  - apply Z.div_le_upper_bound; nia.
Qed.

(** [floor(total * bps / 10000)] over the rationals. *)
Lemma Qfloor_basis_points (total bps : Z) :
  Qfloor (inject_Z total * (bps # 10000)) = total * bps / 10000.
Proof. reflexivity. Qed.

(** C2: for every rate in (0,1) and every unsigned total the split is
    computed, its two amounts add up to the total exactly, and neither
    is negative. *)
Theorem split_is_exact (rate : Number) (total : Z) :
  rate_in_range rate -> 0 <= total ->
  exists commissionAmount merchantAmount,
    split rate total = inr (commissionAmount, merchantAmount)
    /\ commissionAmount + merchantAmount = total
    /\ 0 <= commissionAmount
    /\ 0 <= merchantAmount.
Proof.
  intros Hr Ht.
  destruct (rate_basis_points_range rate Hr) as (bps & Eb & Hb).
  exists (commissionAmountBN total bps), (merchantAmountBN total bps).
  pose proof (commission_bounds total bps Ht Hb) as B.
  split; [now apply split_of_basis_points|].
  unfold merchantAmountBN. lia.
Qed.

Lemma default_rate_in_range : rate_in_range Samples.default_rate.
Proof. repeat split. Qed.

Lemma tiny_rate_in_range : rate_in_range Samples.tiny_rate.
Proof. repeat split. Qed.

Lemma split_is_exact_witness :
  exists commissionAmount merchantAmount,
    split Samples.default_rate (2 ^ 64 + 1) = inr (commissionAmount, merchantAmount)
    /\ commissionAmount + merchantAmount = 2 ^ 64 + 1
    /\ 0 <= commissionAmount
    /\ 0 <= merchantAmount.
Proof.
  apply (split_is_exact Samples.default_rate (2 ^ 64 + 1) default_rate_in_range).
  vm_compute. discriminate.
Defined.

(** C3, as the code has it: for every rate in (0,1) the handler first
    reads the rate as a whole number [bps] of basis points, between 0
    and 10000, and the commission on a positive total is
    [floor(total * bps / 10000)], in integers of any size. *)
Theorem commission_is_floor_of_basis_points (rate : Number) (total : Z) :
  rate_in_range rate -> 0 < total ->
  exists bps commissionAmount merchantAmount,
    rate_basis_points rate = inr bps
    /\ 0 <= bps <= 10000
    /\ split rate total = inr (commissionAmount, merchantAmount)
    /\ commissionAmount = Qfloor (inject_Z total * (bps # 10000))
    /\ commissionAmount = total * bps / 10000.
Proof.
  intros Hr Ht.
  destruct (rate_basis_points_range rate Hr) as (bps & Eb & Hb).
  exists bps, (commissionAmountBN total bps), (merchantAmountBN total bps).
  rewrite Qfloor_basis_points.
  rewrite (commission_is_floor total bps) by lia.
  repeat split; try lia; try assumption.
  rewrite (split_of_basis_points rate bps total Eb).
  now rewrite (commission_is_floor total bps) by lia.
Qed.

Lemma commission_is_floor_of_basis_points_witness :
  exists bps commissionAmount merchantAmount,
    rate_basis_points Samples.default_rate = inr bps
    /\ 0 <= bps <= 10000
    /\ split Samples.default_rate (2 ^ 64) = inr (commissionAmount, merchantAmount)
    /\ commissionAmount = Qfloor (inject_Z (2 ^ 64) * (bps # 10000))
    /\ commissionAmount = 2 ^ 64 * bps / 10000.
Proof.
  apply (commission_is_floor_of_basis_points Samples.default_rate (2 ^ 64)
           default_rate_in_range).
  reflexivity.
Defined.

(** C3 as stated fails: the rate [2^-14] lies in (0,1) and the total
    16384 is positive; [floor(16384 * 2^-14)] is 1, but the handler reads
    the rate as 0 basis points and the commission is 0. *)
Lemma commission_is_floor_of_rate_counterexample :
  rate_in_range Samples.tiny_rate
  /\ 0 < 16384
  /\ (exists q, Number_value Samples.tiny_rate = Some q
                /\ Qfloor (inject_Z 16384 * q) = 1)
  /\ split Samples.tiny_rate 16384 = inr (0, 16384).
Proof.
  split; [exact tiny_rate_in_range|].
  split; [reflexivity|].
  split; [|vm_compute; reflexivity].
  eexists. split; [reflexivity|]. vm_compute. reflexivity.
Qed.

(** The figures of the handler's own documentation: 15 USDC at the
    default rate is 75000 + 14925000 atomic units, and the default rate
    is read as 50 basis points. *)
Lemma default_split_example :
  rate_basis_points Samples.default_rate = inr 50
  /\ split Samples.default_rate 15000000 = inr (75000, 14925000).
Proof. split; vm_compute; reflexivity. Qed.

(** A rate written as 29 basis points, [parseFloat('0.0029')], is read
    as 28: the Number product [0.0029 * 10000] lies just below 29. *)
Lemma basis_points_of_29_10000 :
  rate_basis_points (Number_div (Number_of_Z 29) (Number_of_Z 10000)) = inr 28.
Proof. vm_compute. reflexivity. Qed.

(** What the handler submits are the two amounts of the split, printed
    in decimal. *)
Lemma submitted_amounts_are_the_split (cfg : Config) (req : Request) (w : World)
      (pre post : list Event) (to : string) (amt : Amount) (ans : JsError + Tx) :
  fst (run w (sign_payment cfg req) []) = (pre ++ EvTransfer to amt ans :: post)%list ->
  exists total totalBN commissionBN merchantBN,
    total_amount req = Some total
    /\ BigInt_of_string total = inr totalBN
    /\ split (COMMISSION_RATE cfg) totalBN = inr (commissionBN, merchantBN)
    /\ amt = AmountString (BigInt_toString
               (if Nat.eqb (submit_count pre) 0 then commissionBN else merchantBN)).
Proof.
  intro Esplit.
  destruct (Orchestrator.sign_payment_shape cfg req w) as (auth & ptr & E & Hno & P).
  rewrite E in Esplit. simpl in Esplit.
  destruct (Orchestrator.submission_after_prefix _ _ _ _ _ _ _ Hno Esplit)
    as (pre' & -> & El).
  pose proof (Orchestrator.no_chain_call_no_submit auth Hno) as Hz.
  rewrite Orchestrator.submit_count_app, Hz. simpl.
  inversion P as [resp | rpc pk tok e
                  | rpc pk tok from caddr maddr total totalBN cBN mBN ltr r
                      Hc Hm Ht Hb Hs L];
    subst; crack.
  exists total, totalBN, cBN, mBN.
  inversion L; subst; crack; repeat split; assumption.
Qed.

End Splitter.

(** ** Every way a request can go *)

Module FlowFacts.
Import JS Chain Http Service Props Flow RunFacts.

(** The handler's steps 2-10 are the checks followed by the chain part. *)
Lemma payment_checks (cfg : Config) (req : Request) :
  payment cfg req
  = match checks cfg req with
    | inl r => Ret r
    | inr c => proceed cfg c
    end.
Proof.
  unfold payment, checks, proceed.
  destruct (merchant_address req) as [m|], (total_amount req) as [t|],
           (token req) as [k|], (chain req) as [c|]; try reflexivity.
  destruct (_ || _)%bool; [reflexivity|].
  destruct (truthy_entry (get (RPCS cfg) c)) as [rpc|]; [|reflexivity].
  destruct (get TOKENS k) as [tk|n|]; try reflexivity.
  destruct (truthy_entry (get (contracts tk) c)) as [addr|]; [|reflexivity].
  destruct (COMMISSION_ADDRESS cfg) as [ca|]; [|reflexivity].
  destruct (String.eqb ca EmptyString); [reflexivity|].
  destruct (BigInt_of_string t) as [e|tBN]; [reflexivity|].
  destruct (split (COMMISSION_RATE cfg) tBN) as [e|[cBN mBN]]; reflexivity.
Qed.

(** What [verifyOwnerApiKey] does on a fresh history. *)
Lemma verifyOwnerApiKey_verified (cfg : Config) (w : World) (apiKey : option string) :
  verified cfg w apiKey (fst (run w (verifyOwnerApiKey cfg apiKey) []))
           (snd (run w (verifyOwnerApiKey cfg apiKey) [])).
Proof.
  unfold verifyOwnerApiKey.
  destruct (falsy (OWNER_API_KEY cfg)) eqn:Ho; [now constructor|].
  destruct (strict_neq apiKey (OWNER_API_KEY cfg)) eqn:Hn; [now constructor|].
  destruct apiKey as [key|], (OWNER_API_KEY cfg) as [owner|] eqn:Eo;
    simpl in Hn; try discriminate.
  apply negb_false_iff, String.eqb_eq in Hn. subst owner.
  simpl.
  set (url := AGENTPAY_API_URL cfg ++ "/v1/users/me").
  replace (snd (run w _ _)) with (verdict (on_fetch w [] url key));
    [replace (fst (run w _ _)) with [EvFetch url key (on_fetch w [] url key)]|].
  - eapply verified_by_identity_service; try reflexivity;
      [rewrite Eo; exact Ho | exact Eo].
  - destruct (on_fetch w [] url key) as [e | [|] [e | |]]; reflexivity.
  - destruct (on_fetch w [] url key) as [e | [|] [e | |]]; reflexivity.
Qed.

(** Steps 8-10 leave one of the seven traces of [settled]. *)
Lemma transfers_settled (cfg : Config) (c : Checked) (from : string)
      (w : World) (h : list Event) :
  exists tr r,
    run w (transfers cfg (ck_commission_address c) (ck_merchant c) (ck_total c)
             (ck_token c) (ck_chain c) (ck_tk c) from
             (ck_totalBN c) (ck_commissionBN c) (ck_merchantBN c)) h
    = ((h ++ tr)%list, r)
    /\ settled cfg c from tr r.
Proof.
  unfold transfers. simpl.
  destruct (on_transfer w h (ck_commission_address c) _) as [e|tx1] eqn:T1.
  { do 2 eexists. split; [reflexivity | apply commission_rejected]. }
  simpl.
  destruct (on_wait w _ tx1 1 60000) as [e|rc1] eqn:W1.
  { do 2 eexists. split; [rewrite <- app_assoc; reflexivity | apply commission_unconfirmed]. }
  destruct (failed_on_chain rc1) eqn:F1.
  { do 2 eexists. split; [simpl; rewrite <- app_assoc; reflexivity |].
    apply commission_reverted. now apply Orchestrator.failed_on_chain_true. }
  apply Orchestrator.failed_on_chain_false in F1. simpl.
  destruct (on_transfer w _ (ck_merchant c) _) as [e|tx2] eqn:T2.
  { do 2 eexists. split; [simpl; rewrite <- !app_assoc; reflexivity |].
    now apply merchant_leg_rejected. }
  simpl.
  destruct (on_wait w _ tx2 1 60000) as [e|rc2] eqn:W2.
  { do 2 eexists. split; [simpl; rewrite <- !app_assoc; reflexivity |].
    now apply merchant_leg_unconfirmed. }
  destruct (failed_on_chain rc2) eqn:F2.
  { do 2 eexists. split; [simpl; rewrite <- !app_assoc; reflexivity |].
    apply merchant_leg_reverted; [assumption | now apply Orchestrator.failed_on_chain_true]. }
  apply Orchestrator.failed_on_chain_false in F2.
  do 2 eexists. split; [simpl; rewrite <- !app_assoc; reflexivity |].
  now apply both_confirmed.
Qed.

(** The handler always ends in one of the five ways of [outcome]. *)
Lemma sign_payment_outcome (cfg : Config) (req : Request) (w : World) :
  outcome cfg req w (fst (run w (sign_payment cfg req) []))
          (snd (run w (sign_payment cfg req) [])).
Proof.
  destruct (falsy (x_api_key req)) eqn:Hkey.
  { unfold sign_payment, sign_payment_try. rewrite Hkey. simpl. now constructor. }
  pose proof (verifyOwnerApiKey_verified cfg w (x_api_key req)) as V.
  destruct (snd (run w (verifyOwnerApiKey cfg (x_api_key req)) [])) eqn:Hauth.
  - rewrite (Validator.sign_payment_authorized cfg req w [] Hkey Hauth).
    set (auth := fst (run w (verifyOwnerApiKey cfg (x_api_key req)) [])) in *.
    rewrite payment_checks.
    destruct (checks cfg req) as [r|c] eqn:Ec.
    + simpl. now apply invalid.
    + unfold proceed. simpl.
      destruct (on_connect w auth (ck_rpc c) (GATEWAY_PRIVATE_KEY cfg) (ck_address c))
        as [e|from] eqn:C.
      * simpl. now apply connect_failed.
      * rewrite run_bind.
        destruct (transfers_settled cfg c from w
                    (auth ++ [EvConnect (ck_rpc c) (GATEWAY_PRIVATE_KEY cfg)
                                (ck_address c) (inr from)])%list)
          as (tr & r & E & S).
        rewrite E. simpl. rewrite <- app_assoc. simpl.
        now apply connected.
  - rewrite (Validator.sign_payment_refused cfg req w [] Hkey Hauth). simpl.
    now apply refused.
Qed.

End FlowFacts.

(** ** Authorisation against the identity service *)

Module IdentityCheck.
Import JS Chain Http Service Props Flow RunFacts FlowFacts.



(** When the identity service does not vouch for the owner's own key
    (it is unreachable, answers non-ok, or sends no usable body), the
    owner's request is answered 403 after that single call, and the chain
    client is not contacted. *)
Theorem identity_service_failure_is_403
        (cfg : Config) (req : Request) (w : World) (key : string) :
  OWNER_API_KEY cfg = Some key -> key <> EmptyString ->
  x_api_key req = Some key ->
  verdict (on_fetch w [] (AGENTPAY_API_URL cfg ++ "/v1/users/me") key) = false ->
  run w (sign_payment cfg req) []
  = ([EvFetch (AGENTPAY_API_URL cfg ++ "/v1/users/me") key
        (on_fetch w [] (AGENTPAY_API_URL cfg ++ "/v1/users/me") key)],
     Forbidden).
Proof.
  intros Ho Hk Hreq Hv.
  assert (E : run w (verifyOwnerApiKey cfg (Some key)) []
              = ([EvFetch (AGENTPAY_API_URL cfg ++ "/v1/users/me") key
                    (on_fetch w [] (AGENTPAY_API_URL cfg ++ "/v1/users/me") key)],
                 verdict (on_fetch w [] (AGENTPAY_API_URL cfg ++ "/v1/users/me") key))).
  { unfold verifyOwnerApiKey.
    rewrite Ho, (Authorizer.falsy_Some key Hk). simpl.
    rewrite String.eqb_refl. simpl.
    destruct (on_fetch w [] _ key) as [e | [|] [e | |]]; reflexivity. }
  assert (Hf : falsy (x_api_key req) = false)
    by (rewrite Hreq; now apply Authorizer.falsy_Some).
  rewrite (Validator.sign_payment_refused cfg req w [] Hf);
    rewrite Hreq, E; simpl; [reflexivity | exact Hv].
Qed.

Lemma identity_service_failure_is_403_witness :
  run identity_down (sign_payment Samples.owner_cfg Samples.usdc_on_base) []
  = ([EvFetch "https://api.agentgatepay.com/v1/users/me" "owner-key"
        (FetchFailed (Error "fetch failed"))], Forbidden).
Proof.
  apply (identity_service_failure_is_403 Samples.owner_cfg Samples.usdc_on_base
           identity_down "owner-key" eq_refl); [discriminate | reflexivity | reflexivity].
Defined.

End IdentityCheck.

(** ** The order and reach of the validation *)

Module ValidationFacts.
Import JS Chain Http Service Props Flow RunFacts FlowFacts.

Lemma mem_In (key : string) (l : list string) : mem key l = true <-> In key l.
Proof.
  unfold mem. rewrite existsb_exists. split.
  - intros (x & Hin & E). apply String.eqb_eq in E. now subst.
  - intro H. exists key. split; [assumption | apply String.eqb_refl].
Qed.

Lemma mem_not_In (key : string) (l : list string) : ~ In key l -> mem key l = false.
Proof.
  intro H. destruct (mem key l) eqn:E; [|reflexivity].
  apply mem_In in E. contradiction.
Qed.

Lemma assoc_not_In {V : Type} (own : list (string * V)) (key : string) :
  ~ In key (keys own) -> assoc own key = None.
Proof.
  induction own as [|[k v] own IH]; [reflexivity|].
  simpl. intro H. destruct (String.eqb_spec k key) as [E|N].
  - exfalso. apply H. now left.
  - apply IH. intro Hin. apply H. now right.
Qed.

(** A key that is neither an own key nor a member of [Object.prototype]
    reads as [undefined]. *)
Lemma get_Undefined {V : Type} (own : list (string * V)) (key : string) :
  ~ In key (keys own) -> ~ In key Object_prototype_keys -> get own key = Undefined.
Proof.
  intros H1 H2. unfold get. now rewrite (assoc_not_In own key H1), (mem_not_In key _ H2).
Qed.

(** A member of [Object.prototype] that is not an own key is found. *)
Lemma get_Inherited {V : Type} (own : list (string * V)) (key : string) :
  ~ In key (keys own) -> In key Object_prototype_keys -> get own key = Inherited key.
Proof.
  intros H1 H2. unfold get. rewrite (assoc_not_In own key H1).
  apply mem_In in H2. now rewrite H2.
Qed.

Lemma or_default_nonempty (x : option string) (fallback : string) :
  fallback <> EmptyString -> or_default x fallback <> EmptyString.
Proof.
  intro H. unfold or_default. destruct x as [s|]; [|assumption].
  destruct (String.eqb_spec s EmptyString); assumption.
Qed.

(** Each of the four chains has a non-empty RPC endpoint, whatever the
    environment. *)
Lemma rpc_entry (cfg : Config) (chn : string) :
  In chn supported_chains ->
  exists url, truthy_entry (get (RPCS cfg) chn) = Some (RefString url)
              /\ assoc (RPCS cfg) chn = Some url.
Proof.
  intros [<- | [<- | [<- | [<- | []]]]]; eexists; (split; [|reflexivity]);
    unfold get; simpl assoc; unfold truthy_entry;
    match goal with
    | |- context [or_default ?x ?d] =>
        destruct (String.eqb_spec (or_default x d) EmptyString) as [E|N];
        [exfalso; revert E; apply or_default_nonempty; discriminate | reflexivity]
    end.
Qed.

Lemma eqb_nonempty (s : string) : s <> EmptyString -> String.eqb s EmptyString = false.
Proof. intro H. now apply String.eqb_neq. Qed.

(** The checks of a complete body start at the chain lookup. *)
Lemma checks_complete (cfg : Config) (req : Request) (m t k c : string) :
  complete req m t k c ->
  checks cfg req
  = checks cfg (mkRequest (x_api_key req) (Some m) (Some t) (Some k) (Some c))
  /\ (String.eqb m EmptyString || String.eqb t EmptyString
      || String.eqb k EmptyString || String.eqb c EmptyString)%bool = false.
Proof.
  intros ((Em & Nm) & (Et & Nt) & (Ek & Nk) & (Ec & Nc)).
  split.
  - unfold checks. rewrite Em, Et, Ek, Ec. reflexivity.
  - now rewrite !eqb_nonempty.
Qed.

(** An authorised request that the checks turn down is answered
    without any call to the chain client. *)
Lemma rejected_without_chain_call (cfg : Config) (req : Request) (w : World)
      (r : JsError + Response) :
  authorised cfg req w -> checks cfg req = inl r ->
  snd (run w (sign_payment cfg req) []) = answer r
  /\ filter is_chain_call (fst (run w (sign_payment cfg req) [])) = [].
Proof.
  intros [Hkey Hauth] Hc.
  rewrite (Validator.sign_payment_authorized cfg req w [] Hkey Hauth).
  rewrite payment_checks, Hc. simpl.
  split; [reflexivity|].
  destruct (Authorizer.verifyOwnerApiKey_no_chain_call cfg (x_api_key req) w [])
    as (tr & E & N).
  rewrite E. exact N.
Qed.

(** A chain outside the RPC table (and not a member of
    [Object.prototype]) is answered 400 [Unsupported chain] with the list
    of the four chains, whatever the token, the amount and the commission
    configuration, and without any call to the chain client. *)
Theorem unsupported_chain_is_400 (cfg : Config) (req : Request) (w : World)
        (m t k c : string) :
  authorised cfg req w -> complete req m t k c ->
  ~ In c supported_chains -> ~ In c Object_prototype_keys ->
  snd (run w (sign_payment cfg req) [])
  = json 400 [ ("error", FString ("Unsupported chain: " ++ c));
               ("supported", FStrings supported_chains) ]
  /\ filter is_chain_call (fst (run w (sign_payment cfg req) [])) = [].
Proof.
  intros Ha Hc Hn Hp.
  apply (rejected_without_chain_call cfg req w
           (inr (json 400 [ ("error", FString ("Unsupported chain: " ++ c));
                            ("supported", FStrings supported_chains) ])) Ha).
  destruct (checks_complete cfg req m t k c Hc) as [-> Hne].
  unfold checks. simpl. rewrite Hne.
  now rewrite (get_Undefined (RPCS cfg) c Hn Hp).
Qed.

Lemma unsupported_chain_is_400_witness :
  snd (run (Samples.confirming (Some 1) (Some 1))
           (sign_payment Samples.owner_cfg (request_for "USDC" "solana")) [])
  = json 400 [ ("error", FString "Unsupported chain: solana");
               ("supported", FStrings supported_chains) ].
Proof.
  refine (proj1 (unsupported_chain_is_400 Samples.owner_cfg (request_for "USDC" "solana")
                   (Samples.confirming (Some 1) (Some 1))
                   "0xMERCHANT" "15000000" "USDC" "solana" _ _ _ _)).
  - split; vm_compute; reflexivity.
  - repeat split; discriminate.
  - vm_compute. intuition discriminate.
  - vm_compute. intuition discriminate.
Defined.

(** On a supported chain, a token outside the token table (and not a
    member of [Object.prototype]) is answered 400 [Unsupported token]
    with the list of the three tokens, without any call to the chain
    client. *)
Theorem unsupported_token_is_400 (cfg : Config) (req : Request) (w : World)
        (m t k c : string) :
  authorised cfg req w -> complete req m t k c ->
  In c supported_chains ->
  ~ In k supported_tokens -> ~ In k Object_prototype_keys ->
  snd (run w (sign_payment cfg req) [])
  = json 400 [ ("error", FString ("Unsupported token: " ++ k));
               ("supported", FStrings supported_tokens) ]
  /\ filter is_chain_call (fst (run w (sign_payment cfg req) [])) = [].
Proof.
  intros Ha Hc Hin Hn Hp.
  apply (rejected_without_chain_call cfg req w
           (inr (json 400 [ ("error", FString ("Unsupported token: " ++ k));
                            ("supported", FStrings supported_tokens) ])) Ha).
  destruct (checks_complete cfg req m t k c Hc) as [-> Hne].
  destruct (rpc_entry cfg c Hin) as (url & Hrpc & _).
  unfold checks. simpl. rewrite Hne, Hrpc.
  now rewrite (get_Undefined TOKENS k Hn Hp).
Qed.

Lemma unsupported_token_is_400_witness :
  snd (run (Samples.confirming (Some 1) (Some 1))
           (sign_payment Samples.owner_cfg (request_for "WBTC" "base")) [])
  = json 400 [ ("error", FString "Unsupported token: WBTC");
               ("supported", FStrings supported_tokens) ].
Proof.
  refine (proj1 (unsupported_token_is_400 Samples.owner_cfg (request_for "WBTC" "base")
                   (Samples.confirming (Some 1) (Some 1))
                   "0xMERCHANT" "15000000" "WBTC" "base" _ _ _ _ _)).
  - split; vm_compute; reflexivity.
  - repeat split; discriminate.
  - now left.
  - vm_compute. intuition discriminate.
  - vm_compute. intuition discriminate.
Defined.

Lemma get_TOKENS_inherited (k : string) :
  In k Object_prototype_keys -> get TOKENS k = Inherited k.
Proof.
  unfold Object_prototype_keys. simpl. intuition (subst; reflexivity).
Qed.

(** A token named after a member of [Object.prototype] (such as
    [constructor] or [toString]) passes the token check and makes the
    handler throw on [TOKENS[token].contracts[chain]]: the answer is 500
    [Payment failed] with the engine's message, not 400 [Unsupported
    token], and the chain client is not contacted. *)
Theorem inherited_token_is_500 (cfg : Config) (req : Request) (w : World)
        (m t k c : string) :
  authorised cfg req w -> complete req m t k c ->
  In c supported_chains -> In k Object_prototype_keys ->
  snd (run w (sign_payment cfg req) [])
  = json 500 [ ("error", FString "Payment failed");
               ("message", FString ("Cannot read properties of undefined (reading '"
                                    ++ c ++ "')")) ]
  /\ filter is_chain_call (fst (run w (sign_payment cfg req) [])) = [].
Proof.
  intros Ha Hc Hin Hp.
  apply (rejected_without_chain_call cfg req w
           (inl (Error ("Cannot read properties of undefined (reading '" ++ c ++ "')")))
           Ha).
  destruct (checks_complete cfg req m t k c Hc) as [-> Hne].
  destruct (rpc_entry cfg c Hin) as (url & Hrpc & _).
  unfold checks. simpl. rewrite Hne, Hrpc.
  now rewrite (get_TOKENS_inherited k Hp).
Qed.

Lemma inherited_token_is_500_witness :
  snd (run (Samples.confirming (Some 1) (Some 1))
           (sign_payment Samples.owner_cfg (request_for "toString" "base")) [])
  = json 500 [ ("error", FString "Payment failed");
               ("message", FString "Cannot read properties of undefined (reading 'base')") ].
Proof.
  refine (proj1 (inherited_token_is_500 Samples.owner_cfg (request_for "toString" "base")
                   (Samples.confirming (Some 1) (Some 1))
                   "0xMERCHANT" "15000000" "toString" "base" _ _ _ _)).
  - split; vm_compute; reflexivity.
  - repeat split; discriminate.
  - now left.
  - vm_compute. tauto.
Defined.

(** Of the twelve token/chain pairs only USDT on Base has no contract
    address: a request for it is answered 400 [USDT not supported on
    base] without any call to the chain client, and every other pair
    resolves to a non-empty address. *)
Theorem usdt_on_base_is_the_only_gap :
  (forall cfg req w m t,
      authorised cfg req w -> complete req m t "USDT" "base" ->
      snd (run w (sign_payment cfg req) [])
      = json 400 [ ("error", FString "USDT not supported on base") ]
      /\ filter is_chain_call (fst (run w (sign_payment cfg req) [])) = [])
  /\ (forall k c,
      In k supported_tokens -> In c supported_chains ->
      (k, c) <> ("USDT", "base") ->
      exists tk addr,
        get TOKENS k = Own tk
        /\ truthy_entry (get (contracts tk) c) = Some (RefString addr)).
Proof.
  split.
  - intros cfg req w m t Ha Hc.
    apply (rejected_without_chain_call cfg req w
             (inr (json 400 [ ("error", FString "USDT not supported on base") ])) Ha).
    destruct (checks_complete cfg req m t "USDT" "base" Hc) as [-> Hne].
    destruct (rpc_entry cfg "base" ltac:(now left)) as (url & Hrpc & _).
    unfold checks. cbn [merchant_address total_amount token chain].
    rewrite Hne, Hrpc. reflexivity.
  - intros k c [<- | [<- | [<- | []]]] [<- | [<- | [<- | [<- | []]]]] Hneq;
      try (do 2 eexists; split; reflexivity).
    now contradiction Hneq.
Qed.

Lemma usdt_on_base_is_the_only_gap_witness :
  snd (run (Samples.confirming (Some 1) (Some 1))
           (sign_payment Samples.owner_cfg (request_for "USDT" "base")) [])
  = json 400 [ ("error", FString "USDT not supported on base") ].
Proof.
  refine (proj1 (proj1 usdt_on_base_is_the_only_gap Samples.owner_cfg
                   (request_for "USDT" "base") (Samples.confirming (Some 1) (Some 1))
                   "0xMERCHANT" "15000000" _ _)).
  - split; vm_compute; reflexivity.
  - repeat split; discriminate.
Defined.





(** A chain named after a member of [Object.prototype] passes the chain
    check and the contract lookup: with a listed token and a valid rest
    the handler goes on to connect, handing the inherited function
    object to the chain client as RPC endpoint and as contract address. *)
Theorem inherited_chain_reaches_the_chain_client
        (cfg : Config) (req : Request) (w : World) (m t k c ca : string)
        (tBN cBN mBN : Z) :
  authorised cfg req w -> complete req m t k c ->
  In c Object_prototype_keys -> In k supported_tokens ->
  present (COMMISSION_ADDRESS cfg) ca ->
  BigInt_of_string t = inr tBN ->
  split (COMMISSION_RATE cfg) tBN = inr (cBN, mBN) ->
  exists auth rest,
    fst (run w (sign_payment cfg req) [])
    = (auth ++ EvConnect (RefInherited c) (GATEWAY_PRIVATE_KEY cfg) (RefInherited c)
                 (on_connect w auth (RefInherited c) (GATEWAY_PRIVATE_KEY cfg)
                             (RefInherited c))
            :: rest)%list
    /\ filter is_chain_call auth = [].
Proof.
  intros [Hkey Hauth] Hc Hp Hk [Eca Nca] Hb Hs.
  destruct (Authorizer.verifyOwnerApiKey_no_chain_call cfg (x_api_key req) w [])
    as (auth & Ea & Na).
  simpl in Ea.
  assert (Ec : exists tk, checks cfg req
                 = inr (mkChecked m t k c (RefInherited c) tk (RefInherited c)
                          ca tBN cBN mBN)).
  { destruct (checks_complete cfg req m t k c Hc) as [-> Hne].
    unfold checks. simpl. rewrite Hne.
    assert (Hrpc : get (RPCS cfg) c = Inherited c).
    { revert Hp. unfold Object_prototype_keys. simpl.
      intuition (subst; reflexivity). }
    rewrite Hrpc. simpl.
    assert (Htk : exists tk, get TOKENS k = Own tk /\ get (contracts tk) c = Inherited c).
    { revert Hp Hk. unfold Object_prototype_keys, supported_tokens. simpl.
      intuition (subst; eexists; split; reflexivity). }
    destruct Htk as (tk & -> & ->). simpl.
    rewrite Eca, (eqb_nonempty ca Nca), Hb, Hs. now exists tk. }
  destruct Ec as (tk & Ec).
  rewrite (Validator.sign_payment_authorized cfg req w [] Hkey Hauth).
  rewrite payment_checks, Ec, Ea.
  unfold proceed. simpl.
  set (a := on_connect w auth (RefInherited c) (GATEWAY_PRIVATE_KEY cfg) (RefInherited c)).
  match goal with
  | |- context [run w ?p ?h] => destruct (run_extends w p h) as (rest & Er)
  end.
  exists auth, rest. split; [|assumption].
  rewrite Er, <- app_assoc. reflexivity.
Qed.

Lemma inherited_chain_reaches_the_chain_client_witness :
  exists auth rest,
    fst (run (Samples.confirming (Some 1) (Some 1))
             (sign_payment Samples.owner_cfg (request_for "USDC" "constructor")) [])
    = (auth ++ EvConnect (RefInherited "constructor") (Some "0xKEY")
                 (RefInherited "constructor") (inr "0xWALLET") :: rest)%list
    /\ filter is_chain_call auth = [].
Proof.
  refine (inherited_chain_reaches_the_chain_client Samples.owner_cfg
            (request_for "USDC" "constructor") (Samples.confirming (Some 1) (Some 1))
            "0xMERCHANT" "15000000" "USDC" "constructor" "0xC0FFEE"
            15000000 75000 14925000 _ _ _ _ _ _ _).
  - split; vm_compute; reflexivity.
  - repeat split; discriminate.
  - now left.
  - now left.
  - split; [reflexivity | discriminate].
  - vm_compute. reflexivity.
  - vm_compute. reflexivity.
Defined.

End ValidationFacts.

(** ** What the answer says about the two legs *)

Module SettlementFacts.
Import JS Chain Http Service Props Flow RunFacts FlowFacts.

(** Every answer that ends the checks early is a 400 or a 500. *)
Lemma checks_rejection_status (cfg : Config) (req : Request) (r : JsError + Response) :
  checks cfg req = inl r ->
  status_code (answer r) = 400 \/ status_code (answer r) = 500.
Proof.
  assert (C : forall e, status_code (answer (inl e)) = 400
                        \/ status_code (answer (inl e)) = 500).
  { intro e. apply Orchestrator.sign_payment_catch_members. }
  unfold checks.
  destruct (merchant_address req) as [m|], (total_amount req) as [t|],
           (token req) as [k|], (chain req) as [c|];
    try (intro H; injection H as <-; now left).
  destruct (_ || _)%bool; [intro H; injection H as <-; now left|].
  destruct (truthy_entry (get (RPCS cfg) c)) as [rpc|];
    [|intro H; injection H as <-; now left].
  destruct (get TOKENS k) as [tk|n|];
    [| intro H; injection H as <-; apply C | intro H; injection H as <-; now left].
  destruct (truthy_entry (get (contracts tk) c)) as [addr|];
    [|intro H; injection H as <-; now left].
  destruct (COMMISSION_ADDRESS cfg) as [ca|];
    [|intro H; injection H as <-; now right].
  destruct (String.eqb ca EmptyString); [intro H; injection H as <-; now right|].
  destruct (BigInt_of_string t) as [e|tBN]; [intro H; injection H as <-; apply C|].
  destruct (split (COMMISSION_RATE cfg) tBN) as [e|[cBN mBN]];
    [intro H; injection H as <-; apply C | discriminate].
Qed.

(** [verifyOwnerApiKey] makes no call, or one call to the identity
    service. *)
Lemma verified_calls (cfg : Config) (w : World) (apiKey : option string)
      (auth : list Event) (b : bool) :
  verified cfg w apiKey auth b ->
  auth = [] \/ exists url key a, auth = [EvFetch url key a].
Proof.
  intro V. destruct V; [now left | now left | right; now do 3 eexists].
Qed.

(** A 200 answer is the success document of two confirmed legs. *)
Lemma ok_answer_inv (cfg : Config) (req : Request) (w : World) :
  status_code (snd (run w (sign_payment cfg req) [])) = 200 ->
  exists auth c from tx1 rc1 tx2 rc2,
    checks cfg req = inr c
    /\ fst (run w (sign_payment cfg req) [])
       = (auth ++ [ connect_event cfg c (inr from);
                    commission_event c (inr tx1); EvWait tx1 1 60000 (inr rc1);
                    merchant_event c (inr tx2); EvWait tx2 1 60000 (inr rc2) ])%list
    /\ filter is_chain_call auth = []
    /\ status rc1 = Some 1 /\ status rc2 = Some 1
    /\ snd (run w (sign_payment cfg req) [])
       = success cfg (ck_commission_address c) (ck_merchant c) (ck_total c)
           (ck_token c) (ck_chain c) (ck_tk c) from
           (ck_totalBN c) (ck_commissionBN c) (ck_merchantBN c) tx1 rc1 tx2 rc2.
Proof.
  intro H200.
  pose proof (sign_payment_outcome cfg req w) as O.
  destruct (run w (sign_payment cfg req) []) as [tr resp]. simpl in *.
  assert (C : forall e, status_code (sign_payment_catch e) <> 200).
  { intros e E.
    destruct (Orchestrator.sign_payment_catch_members e) as (_ & _ & [X | X]);
      rewrite X in E; discriminate. }
  inversion O as [Hk | auth Hk V | auth r Hk V Ec | auth c e Hk V Ec
                  | auth c from ltr r Hk V Ec S]; subst.
  - discriminate H200.
  - discriminate H200.
  - destruct (checks_rejection_status cfg req r Ec) as [X | X];
      rewrite X in H200; discriminate.
  - now apply C in H200.
  - assert (Na : filter is_chain_call auth = []).
    { destruct (verified_calls _ _ _ _ _ V) as [-> | (u & k & a & ->)]; reflexivity. }
    inversion S; subst; try (now apply C in H200); try discriminate H200.
    exists auth, c, from. do 4 eexists.
    split; [exact Ec|]. split; [reflexivity|].
    repeat split; assumption.
Qed.

(** A 200 answer means that both legs were submitted and confirmed with
    status 1, in this order, after one connection: the trace is exactly
    connection, commission submission, its wait, merchant submission,
    its wait.  The document then carries the merchant hash as [tx_hash],
    the commission hash as [tx_hash_commission], the two split amounts
    in decimal and the sum of the gas used by the two receipts. *)
Theorem success_means_both_legs_confirmed (cfg : Config) (req : Request) (w : World) :
  status_code (snd (run w (sign_payment cfg req) [])) = 200 ->
  exists auth c from tx1 rc1 tx2 rc2,
    checks cfg req = inr c
    /\ fst (run w (sign_payment cfg req) [])
       = (auth ++ [ connect_event cfg c (inr from);
                    commission_event c (inr tx1); EvWait tx1 1 60000 (inr rc1);
                    merchant_event c (inr tx2); EvWait tx2 1 60000 (inr rc2) ])%list
    /\ filter is_chain_call auth = []
    /\ status rc1 = Some 1 /\ status rc2 = Some 1
    /\ field (snd (run w (sign_payment cfg req) [])) "tx_hash" = Some (FString (hash tx2))
    /\ field (snd (run w (sign_payment cfg req) [])) "tx_hash_commission"
       = Some (FString (hash tx1))
    /\ field (snd (run w (sign_payment cfg req) [])) "commission_amount"
       = Some (FString (BigInt_toString (ck_commissionBN c)))
    /\ field (snd (run w (sign_payment cfg req) [])) "merchant_amount"
       = Some (FString (BigInt_toString (ck_merchantBN c)))
    /\ field (snd (run w (sign_payment cfg req) [])) "gasUsed"
       = Some (FString (BigInt_toString (gasUsed rc1 + gasUsed rc2))).
Proof.
  intro H200.
  destruct (ok_answer_inv cfg req w H200)
    as (auth & c & from & tx1 & rc1 & tx2 & rc2 & Ec & Et & Na & S1 & S2 & ->).
  exists auth, c, from, tx1, rc1, tx2, rc2.
  repeat split; assumption.
Qed.

Lemma success_means_both_legs_confirmed_witness :
  exists auth c from tx1 rc1 tx2 rc2,
    checks Samples.owner_cfg Samples.usdc_on_base = inr c
    /\ fst (run (Samples.confirming (Some 1) (Some 1))
                (sign_payment Samples.owner_cfg Samples.usdc_on_base) [])
       = (auth ++ [ connect_event Samples.owner_cfg c (inr from);
                    commission_event c (inr tx1); EvWait tx1 1 60000 (inr rc1);
                    merchant_event c (inr tx2); EvWait tx2 1 60000 (inr rc2) ])%list
    /\ filter is_chain_call auth = []
    /\ status rc1 = Some 1 /\ status rc2 = Some 1.
Proof.
  destruct (success_means_both_legs_confirmed Samples.owner_cfg Samples.usdc_on_base
              (Samples.confirming (Some 1) (Some 1)))
    as (auth & c & from & tx1 & rc1 & tx2 & rc2 & H1 & H2 & H3 & H4 & H5 & _).
  - vm_compute. reflexivity.
  - exists auth, c, from, tx1, rc1, tx2, rc2. repeat split; assumption.
Defined.

(** Whatever the chain client throws, at the connection, at either
    submission or at either wait, ends the request and is answered by the
    [catch] block from that exception alone: 400 [Insufficient funds]
    for the code [INSUFFICIENT_FUNDS], else 500 [Payment failed] with
    the exception's message. *)
Theorem chain_exception_is_answered_by_catch (cfg : Config) (req : Request) (w : World)
        (pre : list Event) (ev : Event) (e : JsError) :
  fst (run w (sign_payment cfg req) []) = (pre ++ [ev])%list ->
  thrown ev = Some e ->
  snd (run w (sign_payment cfg req) []) = sign_payment_catch e.
Proof.
  intros Etr Hthrown.
  pose proof (sign_payment_outcome cfg req w) as O.
  destruct (run w (sign_payment cfg req) []) as [tr resp]. simpl in *.
  assert (Hne : tr <> []) by (rewrite Etr; intro X; destruct pre; discriminate X).
  assert (L : last tr ev = ev) by (rewrite Etr; apply last_last).
  clear Etr.
  inversion O as [Hk | auth Hk V | auth r Hk V Ec | auth c e' Hk V Ec
                  | auth c from ltr r Hk V Ec S]; subst tr resp;
    try (now contradiction Hne);
    destruct (verified_calls _ _ _ _ _ V) as [-> | (u & k & a & ->)]; simpl in L;
    try (now contradiction Hne);
    try (subst ev; simpl in Hthrown; discriminate Hthrown);
    try (subst ev; simpl in Hthrown; injection Hthrown as <-; reflexivity);
    inversion S; subst; simpl in L; subst ev; simpl in Hthrown;
    try discriminate Hthrown;
    injection Hthrown as <-; reflexivity.
Qed.

Lemma chain_exception_is_answered_by_catch_witness :
  snd (run out_of_funds (sign_payment Samples.owner_cfg Samples.usdc_on_base) [])
  = json 400 [ ("error", FString "Insufficient funds");
               ("message", FString "Gateway wallet does not have enough tokens or ETH for gas") ].
Proof.
  apply (chain_exception_is_answered_by_catch Samples.owner_cfg Samples.usdc_on_base
           out_of_funds
           (Samples.opening ++ Samples.commission_leg (Some 1))
           (EvTransfer "0xMERCHANT" (AmountString "14925000")
              (inl (mkError (Some "INSUFFICIENT_FUNDS") "insufficient funds for gas")))
           (mkError (Some "INSUFFICIENT_FUNDS") "insufficient funds for gas")).
  - vm_compute. reflexivity.
  - reflexivity.
Defined.

(** The calls of a request keep a fixed discipline: at most one call to
    the identity service, one connection, two submissions; every
    submission that returned a transaction is directly followed by the
    wait for that very transaction with 1 confirmation and a 60000 ms
    timeout, and nothing is waited for otherwise. *)
Theorem calls_are_bounded_and_paired (cfg : Config) (req : Request) (w : World) :
  let tr := fst (run w (sign_payment cfg req) []) in
  waits_follow tr = true
  /\ (count is_fetch tr <= 1)%nat
  /\ (count is_connect tr <= 1)%nat
  /\ (submit_count tr <= 2)%nat
  /\ (count is_wait tr <= submit_count tr)%nat.
Proof.
  pose proof (sign_payment_outcome cfg req w) as O.
  destruct (run w (sign_payment cfg req) []) as [tr resp]. simpl in *.
  inversion O as [Hk | auth Hk V | auth r Hk V Ec | auth c e' Hk V Ec
                  | auth c from ltr r Hk V Ec S]; subst tr resp;
    try (destruct (verified_calls _ _ _ _ _ V) as [-> | (u & k & a & ->)]);
    try (inversion S; subst);
    unfold count, submit_count; simpl;
    rewrite ?String.eqb_refl; simpl; repeat split; lia.
Qed.

End SettlementFacts.

(** ** More on the split *)

Module SplitFacts.
Import JS Chain Http Service Props NumberFacts Splitter.

(** A total too small for one atomic unit of commission pays none: when
    [total * bps < 10000] the whole total goes to the merchant. *)
Theorem small_total_pays_no_commission (rate : Number) (total bps : Z) :
  rate_in_range rate -> rate_basis_points rate = inr bps ->
  0 <= total -> total * bps < 10000 ->
  split rate total = inr (0, total).
Proof.
  intros Hr Eb Ht Hs.
  destruct (rate_basis_points_range rate Hr) as (b & Eb' & Hb).
  rewrite Eb in Eb'. injection Eb' as <-.
  rewrite (split_of_basis_points rate bps total Eb).
  unfold merchantAmountBN. rewrite (commission_is_floor total bps) by lia.
  rewrite Z.div_small by nia. repeat f_equal. lia.
Qed.

Lemma small_total_pays_no_commission_witness :
  split Samples.default_rate 199 = inr (0, 199).
Proof.
  apply (small_total_pays_no_commission Samples.default_rate 199 50
           default_rate_in_range).
  - vm_compute. reflexivity.
  - discriminate.
  - reflexivity.
Defined.

(** At the default rate 0.005 the commission is one two-hundredth of the
    total, rounded down, for every unsigned total. *)
Theorem default_rate_takes_one_in_two_hundred (total : Z) :
  0 <= total ->
  split Samples.default_rate total = inr (total / 200, total - total / 200).
Proof.
  intro Ht.
  rewrite (split_of_basis_points Samples.default_rate 50 total)
    by (vm_compute; reflexivity).
  unfold merchantAmountBN. rewrite (commission_is_floor total 50) by lia.
  replace (total * 50 / 10000) with (total / 200); [reflexivity|].
  change 10000 with (200 * 50).
  now rewrite Z.div_mul_cancel_r by lia.
Qed.

Lemma default_rate_takes_one_in_two_hundred_witness :
  split Samples.default_rate (2 ^ 70) = inr (2 ^ 70 / 200, 2 ^ 70 - 2 ^ 70 / 200).
Proof.
  apply (default_rate_takes_one_in_two_hundred (2 ^ 70)). discriminate.
Defined.

(** Both amounts grow with the total: a larger payment never gives the
    merchant, or the commission wallet, less. *)
Theorem split_is_monotone (rate : Number) (t1 t2 c1 m1 c2 m2 : Z) :
  rate_in_range rate -> 0 <= t1 <= t2 ->
  split rate t1 = inr (c1, m1) -> split rate t2 = inr (c2, m2) ->
  c1 <= c2 /\ m1 <= m2.
Proof.
  intros Hr Ht E1 E2.
  destruct (rate_basis_points_range rate Hr) as (bps & Eb & Hb).
  rewrite (split_of_basis_points rate bps t1 Eb) in E1.
  rewrite (split_of_basis_points rate bps t2 Eb) in E2.
  injection E1 as <- <-. injection E2 as <- <-.
  unfold merchantAmountBN. rewrite !commission_is_floor by lia.
  split.
  - apply Z.div_le_mono; nia.
  - assert (t2 * bps / 10000 <= t1 * bps / 10000 + (t2 - t1)); [|lia].
    rewrite <- Z.div_add by lia.
    apply Z.div_le_mono; nia.
Qed.

Lemma split_is_monotone_witness :
  75000 <= 75000 /\ 14925000 <= 14925199.
Proof.
  apply (split_is_monotone Samples.default_rate 15000000 15000199
           75000 14925000 75000 14925199 default_rate_in_range).
  - split; discriminate.
  - vm_compute. reflexivity.
  - vm_compute. reflexivity.
Defined.

End SplitFacts.


(** ** Amounts on the wire *)

Module WireFacts.
Import JS Chain Http Service Props Flow FlowFacts.














End WireFacts.


(** ** The older handler *)

Module LegacyFacts.
Import JS Chain Http Legacy LegacyFlow RunFacts.

(** The [try] block is the checks followed by the chain part. *)
Lemma sign_and_send_try_checks (cfg : Config) (req : Request) :
  sign_and_send_try cfg req
  = match checks cfg req with
    | inl r => Ret r
    | inr c => proceed cfg c
    end.
Proof.
  unfold sign_and_send_try, checks, proceed.
  destruct (falsy (PRIVATE_KEY cfg)); [reflexivity|].
  destruct (_ && _)%bool; [reflexivity|].
  destruct (_ || _)%bool; [reflexivity|].
  destruct (Service.truthy_entry (get (RPCS cfg) (show (chain req)))) as [rpc|];
    [|reflexivity].
  destruct (get TOKENS (show (token req))) as [tk|n|]; try reflexivity.
  destruct (Service.truthy_entry (get (Service.contracts tk) (show (chain req))))
    as [addr|]; [|reflexivity].
  destruct (parseInt (show (amount req))) as [z|]; [|reflexivity].
  destruct (z <=? 0); reflexivity.
Qed.

(** The handler always ends in one of the five ways of [outcome]. *)
Lemma sign_and_send_outcome (cfg : Config) (req : Request) (w : World) :
  outcome cfg req (fst (run w (sign_and_send cfg req) []))
          (snd (run w (sign_and_send cfg req) [])).
Proof.
  unfold sign_and_send. rewrite sign_and_send_try_checks.
  destruct (checks cfg req) as [r|c] eqn:Ec.
  { destruct r; simpl; now apply (rejected cfg req _ Ec). }
  unfold proceed. simpl.
  destruct (on_connect w [] (lk_rpc c) (PRIVATE_KEY cfg) (lk_address c)) as [e|from].
  { simpl. now apply connect_failed. }
  simpl.
  destruct (on_transfer w _ (lk_to c) _) as [e|tx].
  { simpl. now apply submit_failed. }
  simpl.
  destruct (on_wait w _ tx 1 60000) as [e|rc].
  { simpl. now apply wait_failed. }
  simpl. now apply waited.
Qed.

(** The handler never looks at [receipt.status]: once the wait returns
    a receipt the answer is 200 with [success: true] and the hash of the
    transaction, also when the receipt says the transfer was reverted. *)
Theorem receipt_status_is_not_checked (cfg : Config) (req : Request) (w : World)
        (pre : list Event) (tx : Tx) (c t : Z) (receipt : Receipt) :
  fst (run w (sign_and_send cfg req) []) = (pre ++ [EvWait tx c t (inr receipt)])%list ->
  status_code (snd (run w (sign_and_send cfg req) [])) = 200
  /\ field (snd (run w (sign_and_send cfg req) [])) "success" = Some (FBool true)
  /\ field (snd (run w (sign_and_send cfg req) [])) "tx_hash" = Some (FString (hash tx))
  /\ field (snd (run w (sign_and_send cfg req) [])) "block_number"
     = Some (FInt (blockNumber receipt)).
Proof.
  intro Etr.
  pose proof (sign_and_send_outcome cfg req w) as O.
  destruct (run w (sign_and_send cfg req) []) as [tr resp]. simpl in *.
  assert (L : last tr (EvWait tx c t (inr receipt)) = EvWait tx c t (inr receipt))
    by (rewrite Etr; apply last_last).
  assert (Hne : tr <> []) by (rewrite Etr; intro X; destruct pre; discriminate X).
  clear Etr.
  inversion O; subst; simpl in L; try (now contradiction Hne); try discriminate L.
  injection L as E1 E2 E3 E4. subst. repeat split.
Qed.

Lemma receipt_status_is_not_checked_witness :
  status_code (snd (run reverting
                        (sign_and_send Samples.legacy_cfg
                           (Samples.legacy_request "15000000")) [])) = 200.
Proof.
  refine (proj1 (receipt_status_is_not_checked Samples.legacy_cfg
                   (Samples.legacy_request "15000000") reverting
                   [ EvConnect (RefString "https://mainnet.base.org") (Some "0xKEY")
                       (RefString "0x833589fCD6eDb6E08f4c7C32D4f71b54bdA02913")
                       (inr "0xWALLET");
                     EvTransfer "0xMERCHANT" (AmountNumber (Number_of_Z 15000000))
                       (inr (mkTx "0xabc")) ]
                   (mkTx "0xabc") 1 60000 (mkReceipt (Some 0) 100 21000) _)).
  vm_compute. reflexivity.
Defined.

Lemma falsy_false_show (x : option string) : falsy x = false -> x = Some (show x).
Proof. destruct x; [reflexivity | discriminate]. Qed.

(** What the checked data stand for. *)
Lemma legacy_checks_sound (cfg : Config) (req : Request) (c : Checked) :
  checks cfg req = inr c ->
  falsy (PRIVATE_KEY cfg) = false
  /\ to req = Some (lk_to c) /\ amount req = Some (lk_amount c)
  /\ token req = Some (lk_token c) /\ chain req = Some (lk_chain c)
  /\ Service.truthy_entry (get (RPCS cfg) (lk_chain c)) = Some (lk_rpc c)
  /\ get TOKENS (lk_token c) = Own (lk_tk c)
  /\ Service.truthy_entry (get (Service.contracts (lk_tk c)) (lk_chain c))
     = Some (lk_address c)
  /\ parseInt (lk_amount c) = Some (lk_amountInt c)
  /\ 0 < lk_amountInt c.
Proof.
  unfold checks.
  destruct (falsy (PRIVATE_KEY cfg)) eqn:Hp; [discriminate|].
  destruct (_ && _)%bool; [discriminate|].
  destruct (falsy (to req)) eqn:H1; [discriminate|].
  destruct (falsy (amount req)) eqn:H2; [discriminate|].
  destruct (falsy (token req)) eqn:H3; [discriminate|].
  destruct (falsy (chain req)) eqn:H4; [discriminate|].
  simpl orb. cbv iota.
  destruct (Service.truthy_entry (get (RPCS cfg) (show (chain req)))) as [rpc|] eqn:E1;
    [|discriminate].
  destruct (get TOKENS (show (token req))) as [tk|inherited|] eqn:E2; try discriminate.
  destruct (Service.truthy_entry (get (Service.contracts tk) (show (chain req))))
    as [addr|] eqn:E3; [|discriminate].
  destruct (parseInt (show (amount req))) as [z|] eqn:E4; [|discriminate].
  destruct (Z.leb_spec z 0) as [Hz|Hz]; [discriminate|].
  intro H. injection H as <-. simpl.
  repeat split; try assumption; now apply falsy_false_show.
Qed.



(** Whatever the chain client throws ends the request and is answered
    by the [catch] block from that exception alone. *)
Theorem chain_exception_is_answered_by_legacy_catch
        (cfg : Config) (req : Request) (w : World)
        (pre : list Event) (ev : Event) (e : JsError) :
  fst (run w (sign_and_send cfg req) []) = (pre ++ [ev])%list ->
  Flow.thrown ev = Some e ->
  snd (run w (sign_and_send cfg req) []) = sign_and_send_catch e.
Proof.
  intros Etr Hthrown.
  pose proof (sign_and_send_outcome cfg req w) as O.
  destruct (run w (sign_and_send cfg req) []) as [tr resp]. simpl in *.
  assert (L : last tr ev = ev) by (rewrite Etr; apply last_last).
  assert (Hne : tr <> []) by (rewrite Etr; intro X; destruct pre; discriminate X).
  clear Etr.
  inversion O; subst; simpl in L; try (now contradiction Hne);
    subst ev; simpl in Hthrown; try discriminate Hthrown;
    injection Hthrown as <-; reflexivity.
Qed.

Lemma chain_exception_is_answered_by_legacy_catch_witness :
  snd (run Samples.timing_out
           (sign_and_send Samples.legacy_cfg (Samples.legacy_request "15000000")) [])
  = sign_and_send_catch (mkError (Some "TIMEOUT") "wait for transaction timeout").
Proof.
  apply (chain_exception_is_answered_by_legacy_catch Samples.legacy_cfg
           (Samples.legacy_request "15000000") Samples.timing_out
           [ EvConnect (RefString "https://mainnet.base.org") (Some "0xKEY")
               (RefString "0x833589fCD6eDb6E08f4c7C32D4f71b54bdA02913")
               (inr "0xWALLET");
             EvTransfer "0xMERCHANT" (AmountNumber (Number_of_Z 15000000))
               (inr (mkTx "0xc1")) ]
           (EvWait (mkTx "0xc1") 1 60000
              (inl (mkError (Some "TIMEOUT") "wait for transaction timeout")))).
  - vm_compute. reflexivity.
  - reflexivity.
Defined.

(** With [AUTH_TOKEN] unset (or empty) the handler does not authenticate:
    the [Authorization] header has no influence on what it does. *)
Theorem without_auth_token_the_header_is_ignored
        (cfg : Config) (req : Request) (header : option string) (w : World) :
  falsy (AUTH_TOKEN cfg) = true ->
  run w (sign_and_send cfg (with_authorization req header)) []
  = run w (sign_and_send cfg req) [].
Proof.
  intro H.
  assert (E : checks cfg (with_authorization req header) = checks cfg req).
  { unfold checks, truthy. rewrite H. reflexivity. }
  unfold sign_and_send. now rewrite !sign_and_send_try_checks, E.
Qed.

Lemma without_auth_token_the_header_is_ignored_witness :
  run reverting
      (sign_and_send Samples.legacy_cfg
         (with_authorization (Samples.legacy_request "15000000") (Some "Bearer guess"))) []
  = run reverting
        (sign_and_send Samples.legacy_cfg (Samples.legacy_request "15000000")) [].
Proof.
  apply (without_auth_token_the_header_is_ignored Samples.legacy_cfg
           (Samples.legacy_request "15000000") (Some "Bearer guess") reverting).
  reflexivity.
Defined.

Lemma checks_answer_not_200 (cfg : Config) (req : Request) (r : JsError + Response) :
  checks cfg req = inl r -> status_code (answer r) <> 200.
Proof.
  unfold checks.
  destruct (falsy (PRIVATE_KEY cfg)); [intro H; injection H as <-; discriminate|].
  destruct (_ && _)%bool; [intro H; injection H as <-; discriminate|].
  destruct (_ || _)%bool; [intro H; injection H as <-; discriminate|].
  cbv zeta.
  destruct (Service.truthy_entry (get (RPCS cfg) (show (chain req))));
    [|intro H; injection H as <-; discriminate].
  destruct (get TOKENS (show (token req))) as [tk|inherited|];
    [|intro H; injection H as <-; discriminate ..].
  destruct (Service.truthy_entry (get (Service.contracts tk) (show (chain req))));
    [|intro H; injection H as <-; discriminate].
  destruct (parseInt (show (amount req))) as [z|];
    [|intro H; injection H as <-; discriminate].
  destruct (z <=? 0); [intro H; injection H as <-; discriminate | discriminate].
Qed.

Lemma catch_not_200 (e : JsError) : status_code (sign_and_send_catch e) <> 200.
Proof.
  unfold sign_and_send_catch.
  destruct (code_is e "INSUFFICIENT_FUNDS"); [discriminate|].
  destruct (_ || _)%bool; [discriminate|].
  destruct (code_is e "TIMEOUT"); discriminate.
Qed.

(** A 200 answer is the success document of a run that connected,
    submitted once and waited once. *)
Lemma legacy_ok_answer_inv (cfg : Config) (req : Request) (w : World) :
  status_code (snd (run w (sign_and_send cfg req) [])) = 200 ->
  exists c from tx receipt,
    checks cfg req = inr c
    /\ fst (run w (sign_and_send cfg req) [])
       = [connect_event cfg c (inr from); transfer_event c (inr tx);
          EvWait tx 1 60000 (inr receipt)]
    /\ snd (run w (sign_and_send cfg req) []) = done c from tx receipt.
Proof.
  intro H200.
  pose proof (sign_and_send_outcome cfg req w) as O.
  destruct (run w (sign_and_send cfg req) []) as [tr resp]. simpl in *.
  inversion O as [r E | c e E | c from e E | c from tx e E | c from tx rc E]; subst.
  - now destruct (checks_answer_not_200 cfg req r E).
  - now destruct (catch_not_200 e).
  - now destruct (catch_not_200 e).
  - now destruct (catch_not_200 e).
  - exists c, from, tx, rc. repeat split. exact E.
Qed.

(** Decimal digits read after a positive prefix, up to the first
    character that is not a decimal digit. *)
Lemma leading_digits_acc (d : Decimal.uint) (c : ascii) (rest : string) :
  digit_value 10 c = None ->
  forall acc : positive,
    leading_digits 10 (NilEmpty.string_of_uint d ++ String c rest) (Some (Zpos acc))
    = Some (Zpos (Pos.of_uint_acc d acc)).
Proof.
  intro Hc.
  induction d; intro acc; simpl NilEmpty.string_of_uint;
    [simpl; now rewrite Hc | ..];
    cbn [append leading_digits];
    match goal with
    | |- context [digit_value 10 ?c] =>
        let v := eval vm_compute in (digit_value 10 c) in
        change (digit_value 10 c) with v
    end;
    cbv iota beta; cbn [Pos.of_uint_acc];
    match goal with
    | |- leading_digits 10 _ (Some ?a) = Some (Zpos (Pos.of_uint_acc _ ?b)) =>
        replace a with (Zpos b) by lia
    end; apply IHd.
Qed.

Lemma leading_digits_zero (d : Decimal.uint) (c : ascii) (rest : string) :
  digit_value 10 c = None ->
  leading_digits 10 (NilEmpty.string_of_uint d ++ String c rest) (Some 0)
  = Some (Z.of_N (Pos.of_uint d)).
Proof.
  intro Hc.
  induction d; simpl NilEmpty.string_of_uint;
    [simpl; now rewrite Hc | ..];
    cbn [append leading_digits];
    match goal with
    | |- context [digit_value 10 ?c] =>
        let v := eval vm_compute in (digit_value 10 c) in
        change (digit_value 10 c) with v
    end;
    cbv iota beta; cbn [Pos.of_uint Z.of_N];
    first [ exact IHd | apply (leading_digits_acc d c rest Hc) ].
Qed.

(** The decimal digits of a positive integer do not start with [0]. *)
Lemma to_uint_no_leading_zero (p : positive) (d : Decimal.uint) :
  Pos.to_uint p <> Decimal.D0 d.
Proof.
  intro E.
  pose proof (DecimalPos.Unsigned.to_of (Pos.to_uint p)) as N.
  rewrite DecimalPos.Unsigned.of_to in N. simpl in N.
  rewrite E in N. unfold Decimal.unorm in N. simpl in N.
  destruct (Decimal.nzhead d) eqn:Ez; try discriminate N.
  - injection N as ->. exact (DecimalPos.Unsigned.to_uint_nonzero p E).
  - exact (DecimalFacts.nzhead_nonzero d _ Ez).
Qed.

(** [parseInt] reads the leading integer and ignores what follows it. *)
Lemma parseInt_leading_integer (p : positive) (c : ascii) (rest : string) :
  digit_value 10 c = None ->
  parseInt (BigInt_toString (Zpos p) ++ String c rest) = Some (Zpos p).
Proof.
  intro Hc.
  unfold BigInt_toString. simpl Z.to_int.
  unfold NilZero.string_of_int, NilZero.string_of_uint.
  pose proof (DecimalPos.Unsigned.to_uint_nonnil p) as Hn.
  pose proof (to_uint_no_leading_zero p) as Hz.
  pose proof (DecimalPos.Unsigned.of_to p) as Hof.
  assert (E : forall d, d <> Decimal.Nil -> (forall d', d <> Decimal.D0 d') ->
            parseInt (NilEmpty.string_of_uint d ++ String c rest)
            = leading_digits 10 (NilEmpty.string_of_uint d ++ String c rest) None).
  { intros d H1 H2. unfold parseInt.
    destruct d as [|d|d|d|d|d|d|d|d|d|d]; try (now destruct H1);
      try (now destruct (H2 d));
      simpl NilEmpty.string_of_uint; cbn [append];
      match goal with
      | |- context [trim_start (String ?a ?s)] =>
          change (trim_start (String a s)) with (String a s)
      end; cbv iota beta;
      destruct (leading_digits 10 _ None); reflexivity. }
  assert (L : forall d, d <> Decimal.Nil ->
            leading_digits 10 (NilEmpty.string_of_uint d ++ String c rest) None
            = Some (Z.of_N (Pos.of_uint d))).
  { intros d H1.
    destruct d as [|d|d|d|d|d|d|d|d|d|d]; try (now destruct H1);
      simpl NilEmpty.string_of_uint; cbn [append leading_digits];
      match goal with
      | |- context [digit_value 10 ?c] =>
          let v := eval vm_compute in (digit_value 10 c) in
          change (digit_value 10 c) with v
      end;
      cbv iota beta; cbn [Pos.of_uint Z.of_N];
      first [ apply (leading_digits_zero d c rest Hc)
            | apply (leading_digits_acc d c rest Hc) ]. }
  destruct (Pos.to_uint p) eqn:Ep; try (now destruct Hn); rewrite <- Ep in *;
    rewrite (E _ Hn Hz), (L _ Hn), Hof; reflexivity.
Qed.

(** Text after the leading integer of [amount] is dropped without
    notice: the transfer carries the leading integer, while the 200
    answer reports [amount] as it was received. *)
Theorem trailing_text_in_amount_is_dropped
        (cfg : Config) (req : Request) (w : World)
        (p : positive) (c : ascii) (rest : string) :
  amount req = Some (BigInt_toString (Zpos p) ++ String c rest) ->
  digit_value 10 c = None ->
  status_code (snd (run w (sign_and_send cfg req) [])) = 200 ->
  field (snd (run w (sign_and_send cfg req) [])) "amount"
  = Some (FString (BigInt_toString (Zpos p) ++ String c rest))
  /\ map (fun ev => match ev with EvTransfer _ a _ => a | _ => AmountString EmptyString end)
         (filter is_transfer (fst (run w (sign_and_send cfg req) [])))
     = [AmountNumber (Number_of_Z (Zpos p))].
Proof.
  intros Ea Hc H200.
  destruct (legacy_ok_answer_inv cfg req w H200) as (k & from & tx & rc & Ek & Et & Er).
  destruct (legacy_checks_sound cfg req k Ek) as (_ & _ & E2 & _ & _ & _ & _ & _ & E4 & _).
  rewrite Ea in E2. injection E2 as E2.
  rewrite <- E2, (parseInt_leading_integer p c rest Hc) in E4.
  injection E4 as E4.
  rewrite Er, Et. unfold transfer_event. rewrite <- E4, E2. split; reflexivity.
Qed.

Lemma trailing_text_in_amount_is_dropped_witness :
  field (snd (run reverting
                (sign_and_send Samples.legacy_cfg (Samples.legacy_request "15.9")) []))
        "amount"
  = Some (FString "15.9")
  /\ map (fun ev => match ev with EvTransfer _ a _ => a | _ => AmountString EmptyString end)
         (filter is_transfer
            (fst (run reverting
                    (sign_and_send Samples.legacy_cfg (Samples.legacy_request "15.9")) [])))
     = [AmountNumber (Number_of_Z 15)].
Proof.
  apply (trailing_text_in_amount_is_dropped Samples.legacy_cfg
           (Samples.legacy_request "15.9") reverting 15 "." "9");
    vm_compute; reflexivity.
Defined.

Lemma substring_all (s : string) : String.substring 0 (String.length s) s = s.
Proof. induction s as [|c s IH]; [reflexivity|]. simpl. now rewrite IH. Qed.

(** Removing the scheme from [Bearer <token>] leaves the token. *)
Lemma replace_first_bearer (tok : string) :
  replace_first "Bearer " EmptyString ("Bearer " ++ tok) = tok.
Proof.
  unfold replace_first.
  assert (E : String.index 0 "Bearer " ("Bearer " ++ tok) = Some 0%nat)
    by (destruct tok; vm_compute; reflexivity).
  rewrite E. cbn [String.substring append String.length Nat.add Nat.sub].
  rewrite Nat.sub_0_r. apply substring_all.
Qed.

Lemma strict_neq_same (x : option string) : Service.strict_neq x x = false.
Proof. destruct x as [s|]; [|reflexivity]. simpl. now rewrite String.eqb_refl. Qed.

Lemma checks_authenticated (cfg : Config) (req : Request) (header : option string) :
  option_map (replace_first "Bearer " EmptyString) header = AUTH_TOKEN cfg ->
  checks cfg (with_authorization req header) = checks (with_token cfg None) req.
Proof.
  intro H. unfold checks.
  cbn [with_authorization with_token authorization to amount token chain
       PRIVATE_KEY AUTH_TOKEN].
  rewrite H, strict_neq_same, andb_false_r. reflexivity.
Qed.

(** With [AUTH_TOKEN] set, the header [Bearer <AUTH_TOKEN>] is accepted,
    and so is the bare token when it does not contain [Bearer ] itself:
    the request is then handled as it would be without authentication. *)
Theorem accepted_authorization_headers
        (cfg : Config) (req : Request) (tok header : string) (w : World) :
  AUTH_TOKEN cfg = Some tok ->
  header = "Bearer " ++ tok
  \/ (header = tok /\ String.index 0 "Bearer " tok = None) ->
  run w (sign_and_send cfg (with_authorization req (Some header))) []
  = run w (sign_and_send (with_token cfg None) req) [].
Proof.
  intros Ht Hh.
  assert (E : checks cfg (with_authorization req (Some header))
              = checks (with_token cfg None) req).
  { apply checks_authenticated. rewrite Ht. simpl. f_equal.
    destruct Hh as [-> | [-> Hi]].
    - apply replace_first_bearer.
    - unfold replace_first. now rewrite Hi. }
  unfold sign_and_send. rewrite !sign_and_send_try_checks, E.
  destruct (checks (with_token cfg None) req); reflexivity.
Qed.

Lemma accepted_authorization_headers_witness :
  run reverting
      (sign_and_send (with_token Samples.legacy_cfg (Some "s3cret"))
         (with_authorization (Samples.legacy_request "15000000")
            (Some "Bearer s3cret"))) []
  = run reverting
        (sign_and_send (with_token (with_token Samples.legacy_cfg (Some "s3cret")) None)
           (Samples.legacy_request "15000000")) [].
Proof.
  apply (accepted_authorization_headers
           (with_token Samples.legacy_cfg (Some "s3cret"))
           (Samples.legacy_request "15000000") "s3cret" "Bearer s3cret" reverting).
  - reflexivity.
  - left. reflexivity.
Defined.

(** With [PRIVATE_KEY] and [AUTH_TOKEN] set, a request without an
    [Authorization] header, or with [Bearer <other>] for another token,
    is answered 401 before anything else is looked at, and the chain
    client is not contacted. *)
Theorem missing_or_wrong_token_is_401
        (cfg : Config) (req : Request) (tok : string) (w : World) :
  falsy (PRIVATE_KEY cfg) = false ->
  AUTH_TOKEN cfg = Some tok ->
  tok <> EmptyString ->
  authorization req = None
  \/ (exists other, authorization req = Some ("Bearer " ++ other) /\ other <> tok) ->
  run w (sign_and_send cfg req) [] = ([], json 401 [ ("error", FString "Unauthorized") ]).
Proof.
  intros Hp Ht Hne Hh.
  assert (E : checks cfg req = inl (inr (json 401 [ ("error", FString "Unauthorized") ]))).
  { unfold checks. rewrite Hp, Ht.
    assert (T : truthy (Some tok) = true) by (destruct tok; [contradiction | reflexivity]).
    rewrite T.
    destruct Hh as [-> | (other & -> & Ho)]; [reflexivity|].
    cbn [option_map]. rewrite replace_first_bearer. simpl.
    destruct (String.eqb_spec other tok); [contradiction | reflexivity]. }
  unfold sign_and_send. now rewrite sign_and_send_try_checks, E.
Qed.

Lemma missing_or_wrong_token_is_401_witness :
  run reverting
      (sign_and_send (with_token Samples.legacy_cfg (Some "s3cret"))
         (Samples.legacy_request "15000000")) []
  = ([], json 401 [ ("error", FString "Unauthorized") ]).
Proof.
  apply (missing_or_wrong_token_is_401
           (with_token Samples.legacy_cfg (Some "s3cret"))
           (Samples.legacy_request "15000000") "s3cret" reverting).
  - reflexivity.
  - reflexivity.
  - discriminate.
  - left. reflexivity.
Defined.

(** [/health] reports [configured: false] exactly when [/sign-and-send]
    answers every request 500 [Service not configured] without
    contacting the chain client. *)
Theorem health_configured_flag (cfg : Config) :
  field (health cfg) "configured" = Some (FBool false)
  <-> forall (req : Request) (w : World),
        run w (sign_and_send cfg req) []
        = ([], json 500
                 [ ("error", FString "Service not configured");
                   ("message", FString "PRIVATE_KEY environment variable not set") ]).
Proof.
  split.
  - intros H req w.
    assert (Hp : falsy (PRIVATE_KEY cfg) = true).
    { change (field (health cfg) "configured")
        with (Some (FBool (truthy (PRIVATE_KEY cfg)))) in H.
      injection H as H. unfold truthy in H.
      destruct (falsy (PRIVATE_KEY cfg)); [reflexivity | discriminate H]. }
    unfold sign_and_send, sign_and_send_try. rewrite Hp. reflexivity.
  - intro H.
    specialize (H (mkRequest None None None None None) reverting).
    unfold sign_and_send, sign_and_send_try in H.
    destruct (falsy (PRIVATE_KEY cfg)) eqn:Hp.
    + unfold health, truthy. rewrite Hp. reflexivity.
    + exfalso. cbn [authorization option_map to amount token chain falsy] in H.
      destruct (_ && _)%bool in H; simpl in H; discriminate H.
Qed.

(** Every chain listed by [/health] passes the chain check of
    [/sign-and-send], whatever the RPC environment variables hold (an
    empty one falls back to the public endpoint). *)
Theorem listed_chains_have_an_endpoint (cfg : Config) (chn : string) (l : list string) :
  field (health cfg) "supported_chains" = Some (FStrings l) ->
  In chn l ->
  exists url, Service.truthy_entry (get (RPCS cfg) chn) = Some (RefString url)
              /\ url <> EmptyString.
Proof.
  intros H Hin. vm_compute in H. injection H as <-.
  simpl in Hin.
  destruct Hin as [<- | [<- | [<- | [<- | []]]]].
  - exists (Service.or_default (BASE_RPC cfg) "https://mainnet.base.org").
    pose proof (ValidationFacts.or_default_nonempty (BASE_RPC cfg) "https://mainnet.base.org") as N.
    split; [|apply N; discriminate].
    unfold RPCS. cbn.
    destruct (Service.or_default (BASE_RPC cfg) "https://mainnet.base.org");
      [now destruct N | reflexivity].
  - exists (Service.or_default (ETHEREUM_RPC cfg) "https://cloudflare-eth.com").
    pose proof (ValidationFacts.or_default_nonempty (ETHEREUM_RPC cfg) "https://cloudflare-eth.com") as N.
    split; [|apply N; discriminate].
    unfold RPCS. cbn.
    destruct (Service.or_default (ETHEREUM_RPC cfg) "https://cloudflare-eth.com");
      [now destruct N | reflexivity].
  - exists (Service.or_default (POLYGON_RPC cfg) "https://polygon-rpc.com").
    pose proof (ValidationFacts.or_default_nonempty (POLYGON_RPC cfg) "https://polygon-rpc.com") as N.
    split; [|apply N; discriminate].
    unfold RPCS. cbn.
    destruct (Service.or_default (POLYGON_RPC cfg) "https://polygon-rpc.com");
      [now destruct N | reflexivity].
  - exists (Service.or_default (ARBITRUM_RPC cfg) "https://arb1.arbitrum.io/rpc").
    pose proof (ValidationFacts.or_default_nonempty (ARBITRUM_RPC cfg) "https://arb1.arbitrum.io/rpc") as N.
    split; [|apply N; discriminate].
    unfold RPCS. cbn.
    destruct (Service.or_default (ARBITRUM_RPC cfg) "https://arb1.arbitrum.io/rpc");
      [now destruct N | reflexivity].
Qed.

Lemma listed_chains_have_an_endpoint_witness :
  exists url,
    Service.truthy_entry
      (get (RPCS (Legacy.mkConfig None None (Some EmptyString) None None None)) "base")
    = Some (RefString url)
    /\ url <> EmptyString.
Proof.
  apply (listed_chains_have_an_endpoint
           (Legacy.mkConfig None None (Some EmptyString) None None None) "base"
           ["base"; "ethereum"; "polygon"; "arbitrum"]).
  - reflexivity.
  - left. reflexivity.
Defined.

End LegacyFacts.
